(** * NuitkaGUI: the import-dependency extractor

    A shallow embedding of [DependenceUtils.get_import_name_from_py_file]
    (src/utils/dependence_utils.py) and the properties the specification
    states about it.

    The function reads a file, hands the text to [ast.parse], walks the
    tree with [ast.walk], collects the first dot-separated segment of the
    imported names and returns [list(set(import_names))].  The file
    system, the parser and the iteration order of a Python [set] are
    library behaviour; they enter the model through the [Runtime] record,
    and what standard output does with a printed line through a
    [Console]. *)

From Stdlib Require Import Ascii String.
From Equations Require Import Equations.
From stdpp Require Import gmap strings list.

Set Warnings "-register-all".

(** ** Python strings: [str.split] and truthiness *)

Module Str.

(** [s.split(sep)] for a one-character separator: the segments between
    the occurrences of [sep]; the result is never the empty list
    (["".split(".")] is [[""]]). *)
Fixpoint split (sep : ascii) (s : string) : list string :=
  match s with
  | EmptyString => [EmptyString]
  | String c rest =>
      if Ascii.eqb c sep then EmptyString :: split sep rest
      else match split sep rest with
           | [] => [String c EmptyString]
           | seg :: segs => String c seg :: segs
           end
  end.

(** [sep.join(segs)]. *)
Fixpoint join (sep : ascii) (segs : list string) : string :=
  match segs with
  | [] => EmptyString
  | [seg] => seg
  | seg :: rest => seg +:+ String sep (join sep rest)
  end.

(** [c in s]. *)
Fixpoint contains (c : ascii) (s : string) : bool :=
  match s with
  | EmptyString => false
  | String d rest => Ascii.eqb d c || contains c rest
  end.

(** [bool(s)]: a string is truthy when it is not empty. *)
Definition truthy (s : string) : bool :=
  match s with EmptyString => false | String _ _ => true end.

(** [s.startswith(p)]. *)
Definition startswith (p s : string) : bool := String.prefix p s.

End Str.

Definition dot : ascii := "."%char.

(** ** Exceptions

    The part of Python's built-in exception hierarchy that the calls of
    the function can raise, with the classes its [except] clauses name. *)

Inductive exc_class : Set :=
| BaseException
| KeyboardInterrupt
| SystemExit
| Exception
| SyntaxError
| IndentationError
| OSError
| FileNotFoundError
| PermissionError
| IsADirectoryError
| ValueError
| UnicodeError
| UnicodeEncodeError
| RuntimeError
| RecursionError
| MemoryError
| LookupError
| IndexError
| AttributeError.

#[global] Instance exc_class_eq_dec : EqDecision exc_class.
Proof. solve_decision. Defined.

(** The direct base class. *)
Definition base (c : exc_class) : option exc_class :=
  match c with
  | BaseException => None
  | KeyboardInterrupt | SystemExit | Exception => Some BaseException
  | SyntaxError | OSError | ValueError | RuntimeError
  | MemoryError | LookupError | AttributeError => Some Exception
  | IndentationError => Some SyntaxError
  | UnicodeError => Some ValueError
  | UnicodeEncodeError => Some UnicodeError
  | FileNotFoundError | PermissionError | IsADirectoryError => Some OSError
  | RecursionError => Some RuntimeError
  | IndexError => Some LookupError
  end.

(** [issubclass(c, d)], climbing at most [n] base classes. *)
Fixpoint issubclass_upto (n : nat) (c d : exc_class) : bool :=
  bool_decide (c = d) ||
  match n, base c with
  | S n', Some b => issubclass_upto n' b d
  | _, _ => false
  end.

(** The hierarchy above is four levels deep below [BaseException]. *)
Definition issubclass (c d : exc_class) : bool := issubclass_upto 4 c d.

(** An exception object: its class and [str(e)]. *)
Record exn : Set := mkExn { exc_type : exc_class; exc_str : string }.

Definition isinstance (e : exn) (c : exc_class) : bool :=
  issubclass (exc_type e) c.

(** ** Statements with [print], [raise] and [return]

    A statement of a function whose return type is [R] either completes
    normally with a value, executes a [return], or raises.  The only
    state the function touches is the text it prints.  [print] writes to
    [sys.stdout], which can refuse a line: it cannot encode it, or it is
    closed. *)

Inductive completion (R A : Type) : Type :=
| Normal (a : A)
| Return (r : R)
| Raise (e : exn).
Arguments Normal {R A} a.
Arguments Return {R A} r.
Arguments Raise {R A} e.

(** The lines written to standard output, oldest first. *)
Definition stdout : Type := list string.

Definition Py (R A : Type) : Type := stdout -> completion R A * stdout.

Definition ret {R A} (a : A) : Py R A := fun out => (Normal a, out).

Definition bind {R A B} (m : Py R A) (k : A -> Py R B) : Py R B :=
  fun out =>
    match m out with
    | (Normal a, out') => k a out'
    | (Return r, out') => (Return r, out')
    | (Raise e, out') => (Raise e, out')
    end.

Definition return_ {R A} (r : R) : Py R A := fun out => (Return r, out).

Definition raise {R A} (e : exn) : Py R A := fun out => (Raise e, out).

(** [sys.stdout] as [print] meets it: a line is taken, or writing it
    raises and nothing of it is written. *)
Definition Console : Type := string -> option exn.

(** A standard output that takes every line. *)
Definition accepting : Console := fun _ => None.

(** [print(line)] appends one line to standard output, or raises what
    the write raises. *)
Definition print {R} (console : Console) (line : string) : Py R unit :=
  fun out =>
    match console line with
    | None => (Normal tt, out ++ [line])
    | Some e => (Raise e, out)
    end.

(** A library call that yields a value or raises. *)
Definition lift {R A} (r : A + exn) : Py R A :=
  match r with inl a => ret a | inr e => raise e end.

(** One [except C as e: handler] clause. *)
Definition except_clause (R A : Type) : Type := exc_class * (exn -> Py R A).

(** [try: body  except C1 as e: h1  except C2 as e: h2 ...]: the first
    clause whose class the exception is an instance of handles it; when
    none matches the exception keeps propagating. *)
Definition try_ {R A} (body : Py R A) (clauses : list (except_clause R A))
  : Py R A :=
  fun out =>
    match body out with
    | (Raise e, out') =>
        match List.find (fun cl => isinstance e (fst cl)) clauses with
        | Some cl => snd cl e out'
        | None => (Raise e, out')
        end
    | done => done
    end.

(** [for x in xs: acc = body(acc, x)], with the loop-carried variable
    made explicit. *)
Fixpoint for_ {R S B} (xs : list B) (acc : S) (body : S -> B -> Py R S)
  : Py R S :=
  match xs with
  | [] => ret acc
  | x :: rest => bind (body acc x) (fun acc' => for_ rest acc' body)
  end.

Declare Scope py_scope.
Delimit Scope py_scope with py.
Notation "x <- m ;; k" := (bind m (fun x => k))
  (at level 100, m at next level, right associativity) : py_scope.
Notation "m ;; k" := (bind m (fun _ => k))
  (at level 100, right associativity) : py_scope.

(** What the caller of a function observes. *)
Inductive outcome (R : Type) : Type :=
| Returned (r : R)
| Raised (e : exn).
Arguments Returned {R} r.
Arguments Raised {R} e.

(** Calling a function whose body ends in a [return] on every path. *)
Definition call {R} (body : Py R Empty_set) (out : stdout)
  : outcome R * stdout :=
  match body out with
  | (Normal v, _) => match v with end
  | (Return r, out') => (Returned r, out')
  | (Raise e, out') => (Raised e, out')
  end.

(** ** The syntax tree

    What [ast.walk] and the two [isinstance] tests observe of a tree
    built by [ast.parse]: [Import] and [ImportFrom] statements with
    their [alias] children, and every other node with its child nodes in
    the order of [ast.iter_child_nodes]. *)

Record alias : Set := mkAlias { name : string; asname : option string }.

Inductive node : Set :=
| Import (names : list alias)
| ImportFrom (module : option string) (names : list alias) (level : nat)
| Alias (a : alias)
| Other (cls : string) (children : list node).

(** [ast.Module(body=...)]. *)
Definition Module_ (body : list node) : node := Other "Module" body.

(** [ast.iter_child_nodes(n)]: the [alias] objects of an import statement
    are nodes themselves; [module], [level], [name] and [asname] are
    plain fields. *)
Definition iter_child_nodes (n : node) : list node :=
  match n with
  | Import names => List.map Alias names
  | ImportFrom _ names _ => List.map Alias names
  | Alias _ => []
  | Other _ children => children
  end.

Fixpoint node_size (n : node) : nat :=
  match n with
  | Import names => S (length names)
  | ImportFrom _ names _ => S (length names)
  | Alias _ => 1
  | Other _ children => S (list_sum (List.map node_size children))
  end.

Definition queue_size (todo : list node) : nat :=
  list_sum (List.map node_size todo).

(** The loop of [ast.walk]:
    [while todo: node = todo.popleft(); todo.extend(iter_child_nodes(node)); yield node]. *)
Equations? walk_queue (todo : list node) : list node
  by wf (queue_size todo) lt :=
  walk_queue [] := [];
  walk_queue (n :: todo) := n :: walk_queue (todo ++ iter_child_nodes n).
Proof.
  clear walk_queue.
  unfold queue_size. rewrite List.map_app. simpl.
  assert (Happ : forall ks ms : list nat,
             list_sum (ks ++ ms) = list_sum ks + list_sum ms)
    by (intros ks ms; induction ks as [|k ks IH]; simpl; lia).
  rewrite Happ.
  assert (Hch : list_sum (List.map node_size (iter_child_nodes n))
                < node_size n).
  { destruct n as [names|m names l|a|cls children]; simpl; try lia;
      rewrite List.map_map; simpl;
      induction names as [|a names IH]; simpl; lia. }
  lia.
Qed.

(** [ast.walk(tree)]: every node of the tree, breadth first. *)
Definition ast_walk (tree : node) : list node := walk_queue [tree].

(** ** The library calls

    [read_text] stands for
    [with file_path.open('r', encoding='utf-8', errors='ignore') as file: file.read()],
    [ast_parse] for [ast.parse], and [list_of_set l] for [list(set(l))]:
    the distinct elements of [l] in the order in which the hash table
    built from [l] is iterated, which depends on the hashes of the
    strings and, where they collide, on the order of [l]. *)

Definition Path : Set := string.

Record Runtime : Type := mkRuntime {
  read_text : Path -> string + exn;
  ast_parse : string -> node + exn;
  list_of_set : list string -> list string;
  list_of_set_perm :
    forall l : list string,
      list_of_set l ≡ₚ elements (list_to_set l : gset string)
}.

(** ** The extractor *)

(** [l[0]]. *)
Definition getitem0 {R} (l : list string) : Py R string :=
  match l with
  | x :: _ => ret x
  | [] => raise (mkExn IndexError "list index out of range")
  end.

(** The three diagnostics. *)
Definition read_failed_line (file_path : Path) (e : exn) : string :=
  "[DependenceUtils] 读取失败: " +:+ file_path +:+ " -> " +:+ exc_str e.

Definition syntax_error_line (file_path : Path) : string :=
  "[DependenceUtils] 跳过语法错误文件: " +:+ file_path.

Definition syntax_error_detail (e : exn) : string :=
  "  -> " +:+ exc_str e.

Definition parse_failed_line (file_path : Path) (e : exn) : string :=
  "[DependenceUtils] AST解析异常: " +:+ file_path +:+ " -> " +:+ exc_str e.

Section Extractor.

Context (console : Console) (rt : Runtime).

Local Open Scope py_scope.

(** [import_names.append(dotted.split('.')[0])]. *)
Definition append_first_segment {R} (import_names : list string)
    (dotted : string) : Py R (list string) :=
  seg <- getitem0 (Str.split dot dotted) ;;
  ret (import_names ++ [seg]).

(** [for alias in node.names: import_names.append(alias.name.split('.')[0])]. *)
Definition append_alias_names {R} (import_names : list string)
    (names : list alias) : Py R (list string) :=
  for_ names import_names
    (fun import_names alias => append_first_segment import_names (name alias)).

(** The body of [for node in ast.walk(tree)]. *)
Definition visit {R} (import_names : list string) (node : node)
  : Py R (list string) :=
  match node with
  | Import names => append_alias_names import_names names
  | ImportFrom module names _ =>
      match module with
      | Some m =>
          if Str.truthy m then append_first_segment import_names m
          else append_alias_names import_names names
      | None => append_alias_names import_names names
      end
  | _ => ret import_names
  end.

Definition get_import_name_from_py_file (file_path : Path)
  : Py (list string) Empty_set :=
  let import_names := [] in
  file_content <-
    try_ (lift (read_text rt file_path))
      [ (Exception, fun e =>
           print console (read_failed_line file_path e) ;;
           return_ []) ] ;;
  tree <-
    try_ (lift (ast_parse rt file_content))
      [ (SyntaxError, fun e =>
           print console (syntax_error_line file_path) ;;
           print console (syntax_error_detail e) ;;
           return_ []);
        (Exception, fun e =>
           print console (parse_failed_line file_path e) ;;
           return_ []) ] ;;
  import_names <- for_ (ast_walk tree) import_names visit ;;
  return_ (list_of_set rt import_names).

(** What a caller sees: the returned list (or the exception) and
    standard output after the call. *)
Definition extract_on (file_path : Path) (out : stdout)
  : outcome (list string) * stdout :=
  call (get_import_name_from_py_file file_path) out.

End Extractor.

(** The call on a standard output that takes every line. *)
Definition extract (rt : Runtime) (file_path : Path) (out : stdout)
  : outcome (list string) * stdout :=
  extract_on accepting rt file_path out.

(** ** A runtime to evaluate examples with

    Files are given as a table from path to what reading them yields, the
    parser as a table from text to what parsing it yields; a path outside
    the table does not exist, a text outside the table stands for some
    syntax error.  Sets are listed in the order of [elements]. *)

Definition table_read (files : list (Path * (string + exn))) (p : Path)
  : string + exn :=
  match List.find (fun f => String.eqb (fst f) p) files with
  | Some f => snd f
  | None =>
      inr (mkExn FileNotFoundError
             ("[Errno 2] No such file or directory: '" +:+ p +:+ "'"))
  end.

Definition table_parse (grammar : list (string * (node + exn)))
    (text : string) : node + exn :=
  match List.find (fun g => String.eqb (fst g) text) grammar with
  | Some g => snd g
  | None => inr (mkExn SyntaxError "invalid syntax (<unknown>, line 1)")
  end.

Definition table_runtime (files : list (Path * (string + exn)))
    (grammar : list (string * (node + exn))) : Runtime :=
  {| read_text := table_read files;
     ast_parse := table_parse grammar;
     list_of_set := fun l => elements (list_to_set l : gset string);
     list_of_set_perm := fun l => reflexivity _ |}.

(** The same runtime, listing sets in the opposite order. *)
Definition reversed_runtime (rt : Runtime) : Runtime :=
  {| read_text := read_text rt;
     ast_parse := ast_parse rt;
     list_of_set := fun l => reverse (list_of_set rt l);
     list_of_set_perm := fun l =>
       transitivity (reverse_Permutation (list_of_set rt l))
                    (list_of_set_perm rt l) |}.

(** A text of several lines. *)
Definition lines (ls : list string) : string := Str.join "010"%char ls.

(** The trees [ast.parse] builds for a few small programs. *)
Definition demo_grammar : list (string * (node + exn)) :=
  [ ("", inl (Module_ []));
    (lines ["import a"; "import a.b"; "import a.b.c"],
       inl (Module_ [Import [mkAlias "a" None];
                     Import [mkAlias "a.b" None];
                     Import [mkAlias "a.b.c" None]]));
    (lines ["import a"; "import a.b"; "from a import x"],
       inl (Module_ [Import [mkAlias "a" None];
                     Import [mkAlias "a.b" None];
                     ImportFrom (Some "a") [mkAlias "x" None] 0]));
    (lines ["import os"; "from pathlib import Path"; "from . import helper"],
       inl (Module_ [Import [mkAlias "os" None];
                     ImportFrom (Some "pathlib") [mkAlias "Path" None] 0;
                     ImportFrom None [mkAlias "helper" None] 1]));
    (lines ["def f():"; "    import json"; "    return json"],
       inl (Module_ [Other "FunctionDef"
                       [Other "arguments" [];
                        Import [mkAlias "json" None];
                        Other "Return" [Other "Name" [Other "Load" []]]]]));
    ("from a.b import c",
       inl (Module_ [ImportFrom (Some "a.b") [mkAlias "c" None] 0]));
    ("from . import c",
       inl (Module_ [ImportFrom None [mkAlias "c" None] 1]));
    ("from .. import c, d",
       inl (Module_ [ImportFrom None [mkAlias "c" None; mkAlias "d" None] 2]));
    ("from .sibling import x",
       inl (Module_ [ImportFrom (Some "sibling") [mkAlias "x" None] 1]));
    ("from sibling import x",
       inl (Module_ [ImportFrom (Some "sibling") [mkAlias "x" None] 0]));
    ("import a.b as z",
       inl (Module_ [Import [mkAlias "a.b" (Some "z")]]));
    ("import a.b",
       inl (Module_ [Import [mkAlias "a.b" None]]));
    ("from a import b as z",
       inl (Module_ [ImportFrom (Some "a") [mkAlias "b" (Some "z")] 0]));
    ("from . import *",
       inl (Module_ [ImportFrom None [mkAlias "*" None] 1]));
    ("print((1)",
       inr (mkExn SyntaxError "'(' was never closed (<unknown>, line 1)"));
    ("x = 0" +:+ String "000"%char "",
       inr (mkExn ValueError
              "source code string cannot contain null bytes")) ].

Definition demo_files : list (Path * (string + exn)) :=
  [ ("empty.py", inl "");
    ("plain.py", inl (lines ["import a"; "import a.b"; "import a.b.c"]));
    ("dedup.py", inl (lines ["import a"; "import a.b"; "from a import x"]));
    ("mixed.py",
       inl (lines ["import os"; "from pathlib import Path";
                   "from . import helper"]));
    ("nested.py",
       inl (lines ["def f():"; "    import json"; "    return json"]));
    ("from_abs.py", inl "from a.b import c");
    ("from_dot.py", inl "from . import c");
    ("from_dotdot.py", inl "from .. import c, d");
    ("from_sibling.py", inl "from .sibling import x");
    ("from_sibling_abs.py", inl "from sibling import x");
    ("import_as.py", inl "import a.b as z");
    ("import_plain.py", inl "import a.b");
    ("from_as.py", inl "from a import b as z");
    ("star.py", inl "from . import *");
    ("broken.py", inl "print((1)");
    ("nul.py", inl ("x = 0" +:+ String "000"%char ""));
    ("secret.py",
       inr (mkExn PermissionError
              "[Errno 13] Permission denied: 'secret.py'")) ].

Definition demo : Runtime := table_runtime demo_files demo_grammar.







(** ** Vocabulary of the properties *)

(** The file at [file_path] is readable and its text parses to [tree]. *)
Definition parses_to (rt : Runtime) (file_path : Path) (tree : node) : Prop :=
  exists file_content,
    read_text rt file_path = inl file_content /\
    ast_parse rt file_content = inl tree.

(** A failure, as opposed to an interrupt or an exit request, is an
    instance of [Exception]. *)
Definition is_failure (e : exn) : Prop := isinstance e Exception = true.

(** Identifiers: a letter, an underscore or a byte of a non-ASCII
    character, followed by any number of those or digits. *)
Definition is_id_start (c : ascii) : bool :=
  let k := nat_of_ascii c in
  (Nat.leb 65 k && Nat.leb k 90) || (Nat.leb 97 k && Nat.leb k 122)
  || Nat.eqb k 95 || Nat.leb 128 k.

Definition is_id_continue (c : ascii) : bool :=
  let k := nat_of_ascii c in
  is_id_start c || (Nat.leb 48 k && Nat.leb k 57).

Fixpoint all_chars (p : ascii -> bool) (s : string) : bool :=
  match s with
  | EmptyString => true
  | String c rest => p c && all_chars p rest
  end.

Definition is_identifier (s : string) : bool :=
  match s with
  | EmptyString => false
  | String c rest => is_id_start c && all_chars is_id_continue rest
  end.

(** [dotted_name: NAME ('.' NAME)*]. *)
Definition is_dotted_name (s : string) : bool :=
  forallb is_identifier (Str.split dot s).

(** [import_from_as_name: NAME], or the wildcard of [from m import *]. *)
Definition is_from_name (s : string) : bool :=
  is_identifier s || String.eqb s "*".

(** The names of an import statement obey the grammar of the language. *)
Definition well_formed_import (n : node) : bool :=
  match n with
  | Import names => forallb (fun a => is_dotted_name (name a)) names
  | ImportFrom module names _ =>
      match module with Some m => is_dotted_name m | None => true end
      && forallb (fun a => is_from_name (name a)) names
  | _ => true
  end.

Fixpoint well_formed (n : node) : bool :=
  well_formed_import n &&
  match n with
  | Other _ children => forallb well_formed children
  | _ => true
  end.

(** [dotted.split('.')[0]] as a value. *)
Definition first_segment (dotted : string) : string :=
  match Str.split dot dotted with
  | seg :: _ => seg
  | [] => EmptyString
  end.

(** The names the loop body appends at one node, in order. *)
Definition contribution (n : node) : list string :=
  match n with
  | Import names => List.map (fun a => first_segment (name a)) names
  | ImportFrom (Some m) names _ =>
      if Str.truthy m then [first_segment m]
      else List.map (fun a => first_segment (name a)) names
  | ImportFrom None names _ =>
      List.map (fun a => first_segment (name a)) names
  | _ => []
  end.

(** [import_names] when the loop over [ast.walk(tree)] ends. *)
Definition collected (tree : node) : list string :=
  List.flat_map contribution (ast_walk tree).



(** The tree with every relative-import level set to zero: two trees with
    the same image differ in the number of leading dots only. *)
Fixpoint erase_levels (n : node) : node :=
  match n with
  | ImportFrom module names _ => ImportFrom module names 0
  | Other cls children => Other cls (List.map erase_levels children)
  | _ => n
  end.

(** [x] is the first segment of a [name] or [module] field of [n]. *)
Definition segment_of_name (x : string) (n : node) : Prop :=
  match n with
  | Import names => exists a, a ∈ names /\ x = first_segment (name a)
  | ImportFrom module names _ =>
      (exists m, module = Some m /\ x = first_segment m) \/
      (exists a, a ∈ names /\ x = first_segment (name a))
  | _ => False
  end.

(** Every diagnostic starts with the tag of the class. *)
Definition is_diagnostic (line : string) : bool :=
  Str.startswith "[DependenceUtils]" line.

Definition diagnostics (out : stdout) : list string :=
  List.filter is_diagnostic out.

(** Two calls agree: the same exception, or lists with the same
    elements. *)
Definition same_outcome (o1 o2 : outcome (list string)) : Prop :=
  match o1, o2 with
  | Returned r1, Returned r2 => r1 ≡ₚ r2
  | Raised e1, Raised e2 => e1 = e2
  | _, _ => False
  end.

(** ** More vocabulary: the tree below a node *)

(** [subnode n t]: [n] is [t] or is reached from [t] through child
    nodes. *)
Inductive subnode : node -> node -> Prop :=
| subnode_here (n : node) : subnode n n
| subnode_below (n c t : node) :
    c ∈ iter_child_nodes t -> subnode n c -> subnode n t.

(** [s] is a [name] of an alias of [n] or the [module] of [n]. *)
Definition name_field (s : string) (n : node) : Prop :=
  match n with
  | Import names => exists a, a ∈ names /\ name a = s
  | ImportFrom module names _ =>
      module = Some s \/ exists a, a ∈ names /\ name a = s
  | _ => False
  end.

(** [n] is an import statement. *)
Definition is_import (n : node) : bool :=
  match n with
  | Import _ | ImportFrom _ _ _ => true
  | _ => false
  end.

(** A second table of files: statements that import nothing, and a read
    and a parser that are interrupted. *)
Definition quiet_grammar : list (string * (node + exn)) :=
  [ (lines ["x = 1"; "print(x)"],
       inl (Module_ [Other "Assign"
                       [Other "Name" [Other "Store" []];
                        Other "Constant" []];
                     Other "Expr"
                       [Other "Call"
                          [Other "Name" [Other "Load" []];
                           Other "Name" [Other "Load" []]]]]));
    (lines ["import os"; "import sys"],
       inl (Module_ [Import [mkAlias "os" None];
                     Import [mkAlias "sys" None]]));
    (lines ["import sys"; "import os"],
       inl (Module_ [Import [mkAlias "sys" None];
                     Import [mkAlias "os" None]]));
    ("import os", inl (Module_ [Import [mkAlias "os" None]]));
    ("import sys", inl (Module_ [Import [mkAlias "sys" None]]));
    (lines ["try:"; "    import ujson.fast as json"; "except ImportError:";
            "    from . import compat"],
       inl (Module_ [Other "Try"
                       [Import [mkAlias "ujson.fast" (Some "json")];
                        Other "ExceptHandler"
                          [Other "Name" [Other "Load" []];
                           ImportFrom None [mkAlias "compat" None] 1]]]));
    ("while True: pass", inr (mkExn KeyboardInterrupt "")) ].

Definition quiet_files : list (Path * (string + exn)) :=
  [ ("quiet.py", inl (lines ["x = 1"; "print(x)"]));
    ("os_sys.py", inl (lines ["import os"; "import sys"]));
    ("sys_os.py", inl (lines ["import sys"; "import os"]));
    ("os.py", inl "import os");
    ("sys.py", inl "import sys");
    ("guarded.py",
       inl (lines ["try:"; "    import ujson.fast as json";
                   "except ImportError:"; "    from . import compat"]));
    ("slow_parse.py", inl "while True: pass");
    ("slow_read.py", inr (mkExn KeyboardInterrupt "")) ].

Definition quiet : Runtime := table_runtime quiet_files quiet_grammar.




(** ** The presenter (src/presenter/basic_presenter.py)

    [BasicPresenter] reacts to the widgets of the view: it checks what the
    user picked, stores it in the model and in the view, and reports with
    info bars.  [BasicModel], [BasicView], [SignalBus],
    [WindowExplorerUtils] and the Qt dialogs are not part of the modelled
    code: the attributes of the model are plain attributes, what the
    presenter assigns to the view is kept as the value last assigned, the
    calls it makes are recorded in order, and what the file system and
    the dialogs answer during one call is a [World].  Of the calls only
    [Path.mkdir], which the code guards with [try], is taken to raise.
    [_start] runs a thread and measures time and is left out. *)

Module Presenter.

(** *** [_safe_path] *)

Section SafePath.

(** Characters with [str.isspace], and paths with the constructor
    [Path(str)], as the library has them. *)
Context {char P : Type} (isspace : char -> bool) (Path_ : list char -> P).

(** The argument of [_safe_path]: a [Path], a [str], or anything else. *)
Inductive value : Type :=
| VPath (p : P)
| VStr (s : list char)
| VOther.

(** [s.lstrip()], [s.rstrip()], [s.strip()]. *)
Fixpoint lstrip (s : list char) : list char :=
  match s with
  | c :: rest => if isspace c then lstrip rest else s
  | [] => []
  end.

Definition rstrip (s : list char) : list char := rev (lstrip (rev s)).

Definition strip (s : list char) : list char := rstrip (lstrip s).

(** [bool(s)] for a [str]. *)
Definition str_truthy (s : list char) : bool :=
  match s with [] => false | _ :: _ => true end.

Definition _safe_path (v : value) : option P :=
  match v with
  | VPath p => Some p
  | VStr s => if str_truthy (strip s) then Some (Path_ s) else None
  | VOther => None
  end.

End SafePath.

Arguments VPath {char P} p.
Arguments VStr {char P} s.
Arguments VOther {char P}.

(** *** Paths, the model, the view *)

(** A path as the presenter builds it: [Path(s)], [Path.cwd()],
    [p.parent], [p / s]. *)
Inductive path : Set :=
| Path_ (s : string)
| cwd
| parent (p : path)
| joinpath (p : path) (s : string).

#[global] Instance path_eq_dec : EqDecision path.
Proof. solve_decision. Defined.

(** The attributes of the model the presenter reads or assigns. *)
Record Model : Set := mkModel {
  source_script_path : option path;
  output_dir : option path;
  icon_path : option path;
  packaged_mode : string;
  project_python_exe_path : option string
}.

(** What the presenter last assigned to the attributes of the view. *)
Record View : Set := mkView {
  view_source_script_path : option path;
  view_output_dir : option path;
  view_icon_path : option path
}.

(** The calls the presenter makes, besides attribute assignments. *)
Inductive event : Set :=
| show_warning_infobar (title content : string)
| show_error_infobar (title content : string)
| show_success_infobar (title content : string) (duration : Z)
| show_mask_dialog (title content : string)
| logger_error (message : string)
| logger_info (message : string)
| mkdir (p : path)
| find_files_in_dir_recursive (dir : path) (pattern : string)
| getOpenFileName (caption dir filter : string)
| getExistingDirectory (caption dir : string)
| update_setting_view_emit.

Record State : Set := mkState {
  model : Model;
  view : View;
  calls : list event
}.

(** What the surroundings answer during one call of a handler. *)
Record World : Type := mkWorld {
  path_exists : path -> bool;
  path_suffix : path -> string;
  path_name : path -> string;
  path_str : path -> string;
  is_relative_to : path -> path -> bool;
  mkdir_result : path -> unit + exn;
  found_files : path -> string -> list string;
  picked_file : string -> string -> string -> string;
  picked_directory : string -> string -> string;
  mode_radiobutton_isChecked : bool
}.

(** *** Statements of a handler *)

Definition Ui (A : Type) : Type := State -> completion unit A * State.

Definition pure {A} (a : A) : Ui A := fun st => (Normal a, st).

Definition and_then {A B} (m : Ui A) (k : A -> Ui B) : Ui B :=
  fun st =>
    match m st with
    | (Normal a, st') => k a st'
    | (Return r, st') => (Return r, st')
    | (Raise e, st') => (Raise e, st')
    end.

(** A bare [return]. *)
Definition return_None {A} : Ui A := fun st => (Return tt, st).

Definition emit (ev : event) : Ui unit :=
  fun st => (Normal tt, mkState (model st) (view st) (calls st ++ [ev])).

Definition get_model : Ui Model := fun st => (Normal (model st), st).

Definition set_model (f : Model -> Model) : Ui unit :=
  fun st => (Normal tt, mkState (f (model st)) (view st) (calls st)).

Definition set_view (f : View -> View) : Ui unit :=
  fun st => (Normal tt, mkState (model st) (f (view st)) (calls st)).

(** A call that may raise, recorded before its outcome is known. *)
Definition attempt {A} (ev : event) (r : A + exn) : Ui A :=
  fun st =>
    let st' := mkState (model st) (view st) (calls st ++ [ev]) in
    match r with
    | inl a => (Normal a, st')
    | inr e => (Raise e, st')
    end.

(** [try: body  except C as e: handler]. *)
Definition try_except {A} (body : Ui A) (C : exc_class)
    (handler : exn -> Ui A) : Ui A :=
  fun st =>
    match body st with
    | (Raise e, st') =>
        if isinstance e C then handler e st' else (Raise e, st')
    | done => done
    end.

Declare Scope ui_scope.
Delimit Scope ui_scope with ui.
Notation "x <- m ;; k" := (and_then m (fun x => k))
  (at level 100, m at next level, right associativity) : ui_scope.
Notation "m ;; k" := (and_then m (fun _ => k))
  (at level 100, right associativity) : ui_scope.

(** Calling a handler: falling off its end returns [None] as well. *)
Definition invoke (body : Ui unit) (st : State) : outcome unit * State :=
  match body st with
  | (Normal _, st') => (Returned tt, st')
  | (Return _, st') => (Returned tt, st')
  | (Raise e, st') => (Raised e, st')
  end.

(** Assignments to the attributes. *)
Definition model_source_script_path (v : option path) (m : Model) : Model :=
  mkModel v (output_dir m) (icon_path m) (packaged_mode m)
    (project_python_exe_path m).

Definition model_output_dir (v : option path) (m : Model) : Model :=
  mkModel (source_script_path m) v (icon_path m) (packaged_mode m)
    (project_python_exe_path m).

Definition model_icon_path (v : option path) (m : Model) : Model :=
  mkModel (source_script_path m) (output_dir m) v (packaged_mode m)
    (project_python_exe_path m).

Definition model_packaged_mode (v : string) (m : Model) : Model :=
  mkModel (source_script_path m) (output_dir m) (icon_path m) v
    (project_python_exe_path m).

Definition model_project_python_exe_path (v : option string) (m : Model)
  : Model :=
  mkModel (source_script_path m) (output_dir m) (icon_path m)
    (packaged_mode m) v.

Definition assign_view_source_script_path (v : option path) (w : View)
  : View :=
  mkView v (view_output_dir w) (view_icon_path w).

Definition assign_view_output_dir (v : option path) (w : View) : View :=
  mkView (view_source_script_path w) v (view_icon_path w).

Definition assign_view_icon_path (v : option path) (w : View) : View :=
  mkView (view_source_script_path w) (view_output_dir w) v.

(** *** The handlers *)

Section Handlers.

Context (w : World).

Local Open Scope ui_scope.

Definition newline : string := String "010"%char EmptyString.

Definition _ensure_output_dir (p : path) : Ui unit :=
  try_except (attempt (mkdir p) (mkdir_result w p)) Exception
    (fun e =>
       emit (logger_error ("创建输出目录失败: " +:+ exc_str e)) ;;
       emit (show_error_infobar "错误" "创建输出目录失败")).

Definition _get_output_dir_path : Ui path :=
  m <- get_model ;;
  match source_script_path m with
  | None => pure (joinpath cwd "output")
  | Some script => pure (joinpath (parent script) "output")
  end.

Definition _source_script_changed (drop_file_url : string) : Ui unit :=
  let drop_file_path := Path_ drop_file_url in
  if negb (path_exists w drop_file_path) then
    emit (show_warning_infobar "错误" ("文件不存在: " +:+ drop_file_url)) ;;
    set_model (model_source_script_path None) ;;
    return_None
  else if negb (String.eqb (path_suffix w drop_file_path) ".py") then
    emit (show_warning_infobar "错误" "只能拖入 .py 文件") ;;
    set_model (model_source_script_path None) ;;
    return_None
  else
    set_model (model_source_script_path (Some drop_file_path)) ;;
    set_view (assign_view_source_script_path (Some drop_file_path)) ;;
    output_dir <- _get_output_dir_path ;;
    _ensure_output_dir output_dir ;;
    set_model (model_output_dir (Some output_dir)) ;;
    set_view (assign_view_output_dir (Some output_dir)) ;;
    emit (show_success_infobar "成功"
            ("已选择文件: " +:+ path_name w drop_file_path) 2000) ;;
    emit (find_files_in_dir_recursive (parent drop_file_path) "python.exe") ;;
    match found_files w (parent drop_file_path) "python.exe" with
    | [] => pure tt
    | project_python_exe :: _ =>
        if is_relative_to w (Path_ project_python_exe)
             (parent drop_file_path)
        then
          emit (show_mask_dialog "已找到项目 Python.exe"
                  ("检测到虚拟环境, 是否使用:" +:+ newline
                   +:+ project_python_exe)) ;;
          set_model (model_project_python_exe_path
                       (Some project_python_exe)) ;;
          emit update_setting_view_emit
        else pure tt
    end.

Definition _open_file_dialog : Ui unit :=
  emit (getOpenFileName "选择 Python 文件" "" "Python 文件 (*.py)") ;;
  let py_file := picked_file w "选择 Python 文件" "" "Python 文件 (*.py)" in
  if negb (Str.truthy py_file) then
    emit (show_warning_infobar "错误" "未选择任何文件") ;;
    return_None
  else _source_script_changed py_file.

Definition _output_dir_changed : Ui unit :=
  m <- get_model ;;
  match source_script_path m with
  | None =>
      emit (show_warning_infobar "错误" "请先选择 Python 文件") ;;
      return_None
  | Some _ =>
      emit (getExistingDirectory "选择输出路径" "") ;;
      let output_path := picked_directory w "选择输出路径" "" in
      if negb (Str.truthy output_path) then
        default_path <- _get_output_dir_path ;;
        _ensure_output_dir default_path ;;
        set_view (assign_view_output_dir (Some default_path)) ;;
        set_model (model_output_dir (Some default_path)) ;;
        emit (show_warning_infobar "提示" "未选择文件夹, 已使用默认路径") ;;
        return_None
      else
        let output_path := Path_ output_path in
        _ensure_output_dir output_path ;;
        set_view (assign_view_output_dir (Some output_path)) ;;
        set_model (model_output_dir (Some output_path)) ;;
        emit (logger_info ("选择输出路径为: " +:+ path_str w output_path))
  end.

Definition _icon_changed : Ui unit :=
  emit (getOpenFileName "选择图标文件" "" "图标文件 (*.ico)") ;;
  let icon_path := picked_file w "选择图标文件" "" "图标文件 (*.ico)" in
  if negb (Str.truthy icon_path) then
    set_model (model_icon_path None) ;;
    return_None
  else
    let icon_path := Path_ icon_path in
    set_model (model_icon_path (Some icon_path)) ;;
    set_view (assign_view_icon_path (Some icon_path)) ;;
    emit (show_success_infobar "成功"
            ("已选择图标文件: " +:+ path_name w icon_path) 2000).

Definition _packaged_mode_changed : Ui unit :=
  let is_onefile := mode_radiobutton_isChecked w in
  set_model (model_packaged_mode
               (if is_onefile then "onefile" else "standalone")).

End Handlers.

(** *** The signals bound in [bind], and a session of them *)

Inductive signal : Set :=
| droped_file_url (url : string)
| source_script_btn_clicked
| output_path_btn_clicked
| icon_btn_clicked
| mode_radiobutton_checkedChanged.

Definition slot (w : World) (s : signal) : Ui unit :=
  match s with
  | droped_file_url url => _source_script_changed w url
  | source_script_btn_clicked => _open_file_dialog w
  | output_path_btn_clicked => _output_dir_changed w
  | icon_btn_clicked => _icon_changed w
  | mode_radiobutton_checkedChanged => _packaged_mode_changed w
  end.

(** The state after a series of signals, each delivered in the world of
    its moment; a slot that raises leaves the state as it was when the
    exception left it. *)
Fixpoint session (signals : list (World * signal)) (st : State) : State :=
  match signals with
  | [] => st
  | (w, s) :: rest => session rest (snd (invoke (slot w s) st))
  end.

(** The model and the view agree on the output directory, and the model
    holds no script and no icon other than the one assigned to the
    view. *)
Definition in_step (st : State) : Prop :=
  output_dir (model st) = view_output_dir (view st) /\
  (source_script_path (model st) = None \/
   source_script_path (model st) = view_source_script_path (view st)) /\
  (icon_path (model st) = None \/
   icon_path (model st) = view_icon_path (view st)).

(** A world to evaluate examples with: the project of [/proj/app.py],
    whose output directory cannot be created. *)
Definition read_only_world : World :=
  {| path_exists := fun p => bool_decide (p = Path_ "/proj/app.py");
     path_suffix := fun p =>
       if bool_decide (p = Path_ "/proj/app.py") then ".py" else ".txt";
     path_name := fun _ => "app.py";
     path_str := fun _ => "/proj/out";
     is_relative_to := fun p _ =>
       bool_decide (p = Path_ "/proj/venv/Scripts/python.exe");
     mkdir_result := fun _ =>
       inr (mkExn PermissionError "[Errno 13] Permission denied");
     found_files := fun _ _ =>
       ["/usr/bin/python.exe"; "/proj/venv/Scripts/python.exe"];
     picked_file := fun _ _ _ => "";
     picked_directory := fun _ _ => "";
     mode_radiobutton_isChecked := true |}.

(** A world in which the user picks the icon [/proj/app.ico]. *)
Definition icon_world : World :=
  {| path_exists := fun _ => true;
     path_suffix := fun _ => ".ico";
     path_name := fun _ => "app.ico";
     path_str := fun _ => "/proj/app.ico";
     is_relative_to := fun _ _ => false;
     mkdir_result := fun _ => inl tt;
     found_files := fun _ _ => [];
     picked_file := fun _ _ _ => "/proj/app.ico";
     picked_directory := fun _ _ => "";
     mode_radiobutton_isChecked := false |}.

(** A state to start examples from; the initial values of the model are
    not part of the modelled code. *)
Definition fresh : State :=
  mkState (mkModel None None None "onefile" None) (mkView None None None) [].

End Presenter.

(** * Examples *)

Example split_dotted : Str.split dot "a.b.c" = ["a"; "b"; "c"].
Proof. reflexivity. Qed.

Example split_empty : Str.split dot "" = [""].
Proof. reflexivity. Qed.

Example split_leading_dot : Str.split dot ".a" = [""; "a"].
Proof. reflexivity. Qed.

Example SyntaxError_is_Exception : issubclass IndentationError Exception = true.
Proof. reflexivity. Qed.

Example KeyboardInterrupt_is_no_Exception :
  issubclass KeyboardInterrupt Exception = false.
Proof. reflexivity. Qed.

(** Four steps reach the root from every class, so [issubclass] misses
    no base class. *)
Lemma every_class_is_a_BaseException (c : exc_class) :
  issubclass c BaseException = true.
Proof. destruct c; reflexivity. Qed.

(** [ast.walk] is breadth first and yields the [alias] nodes too. *)
Example walk_order :
  ast_walk (Module_ [Other "If" [Import [mkAlias "a" None]];
                     Import [mkAlias "b" (Some "z")]])
  = [Module_ [Other "If" [Import [mkAlias "a" None]];
              Import [mkAlias "b" (Some "z")]];
     Other "If" [Import [mkAlias "a" None]];
     Import [mkAlias "b" (Some "z")];
     Import [mkAlias "a" None];
     Alias (mkAlias "b" (Some "z"));
     Alias (mkAlias "a" None)].
Proof. reflexivity. Qed.

(** An empty file: no names, nothing printed. *)
Example demo_empty : extract demo "empty.py" [] = (Returned [], []).
Proof. vm_compute. reflexivity. Qed.

(** An import inside a function body is found as well. *)
Example demo_nested : extract demo "nested.py" [] = (Returned ["json"], []).
Proof. vm_compute. reflexivity. Qed.

(** The three kinds of statement in one file: the union of what each
    contributes. *)
Example demo_mixed :
  exists r, extract demo "mixed.py" [] = (Returned r, []) /\
            r ≡ₚ ["os"; "pathlib"; "helper"].
Proof.
  eexists. split; [vm_compute; reflexivity|].
  apply Permutation_skip, Permutation_swap.
Qed.

(** A parser failure that is no syntax error takes the third handler. *)
Example demo_null_bytes :
  extract demo "nul.py" []
  = (Returned [],
     ["[DependenceUtils] AST解析异常: nul.py -> source code string cannot contain null bytes"]).
Proof. vm_compute. reflexivity. Qed.

(** * Properties *)

(** ** Strings *)

Lemma split_nonempty (sep : ascii) (s : string) : Str.split sep s <> [].
Proof.
  induction s as [|c rest IH]; simpl; [discriminate|].
  destruct (Ascii.eqb c sep); [discriminate|].
  destruct (Str.split sep rest); discriminate.
Qed.

Lemma split_head_no_sep (sep : ascii) (s seg : string) (segs : list string) :
  Str.split sep s = seg :: segs -> Str.contains sep seg = false.
Proof.
  revert seg segs. induction s as [|c rest IH]; simpl; intros seg segs H.
  - injection H as <- _. reflexivity.
  - destruct (Ascii.eqb c sep) eqn:Hc.
    + injection H as <- _. reflexivity.
    + destruct (Str.split sep rest) as [|w ws] eqn:Hs.
      * injection H as <- _. simpl. rewrite Hc. reflexivity.
      * injection H as <- _. simpl. rewrite Hc. simpl. eapply IH. reflexivity.
Qed.

Lemma split_no_sep (sep : ascii) (s : string) :
  Str.contains sep s = false -> Str.split sep s = [s].
Proof.
  induction s as [|c rest IH]; simpl; intros H; [reflexivity|].
  apply orb_false_iff in H as [Hc Hrest].
  rewrite Hc, (IH Hrest). reflexivity.
Qed.

Lemma split_prefix (sep : ascii) (a rest : string) :
  Str.contains sep a = false ->
  exists segs, Str.split sep (a +:+ String sep rest) = a :: segs.
Proof.
  induction a as [|c a IH]; simpl; intros H.
  - rewrite Ascii.eqb_refl. eauto.
  - apply orb_false_iff in H as [Hc Ha].
    rewrite Hc. destruct (IH Ha) as [segs ->]. eauto.
Qed.

Lemma split_join (sep : ascii) (a : string) (rest : list string) :
  Str.contains sep a = false ->
  exists segs, Str.split sep (Str.join sep (a :: rest)) = a :: segs.
Proof.
  intros Ha. destruct rest as [|b rest].
  - simpl. rewrite (split_no_sep _ _ Ha). eauto.
  - change (Str.join sep (a :: b :: rest))
      with (a +:+ String sep (Str.join sep (b :: rest))).
    apply split_prefix, Ha.
Qed.

Lemma first_segment_no_dot (s : string) :
  Str.contains dot (first_segment s) = false.
Proof.
  unfold first_segment. destruct (Str.split dot s) as [|seg segs] eqn:H.
  - reflexivity.
  - eapply split_head_no_sep, H.
Qed.

Lemma first_segment_join (a : string) (rest : list string) :
  Str.contains dot a = false ->
  first_segment (Str.join dot (a :: rest)) = a.
Proof.
  intros Ha. unfold first_segment.
  destruct (split_join dot a rest Ha) as [segs ->]. reflexivity.
Qed.

(** ** The loop never raises and computes [collected] *)

Lemma append_first_segment_eq {R} (acc : list string) (s : string)
    (out : stdout) :
  @append_first_segment R acc s out = (Normal (acc ++ [first_segment s]), out).
Proof.
  unfold append_first_segment, bind, getitem0, first_segment.
  pose proof (split_nonempty dot s) as Hne.
  destruct (Str.split dot s); [congruence|reflexivity].
Qed.

Lemma append_alias_names_eq {R} (names : list alias) (acc : list string)
    (out : stdout) :
  @append_alias_names R acc names out
  = (Normal (acc ++ List.map (fun a => first_segment (name a)) names), out).
Proof.
  unfold append_alias_names. revert acc.
  induction names as [|a names IH]; intros acc; simpl.
  - rewrite app_nil_r. reflexivity.
  - unfold bind at 1. rewrite append_first_segment_eq, IH.
    rewrite <- app_assoc. reflexivity.
Qed.

Lemma visit_eq {R} (acc : list string) (n : node) (out : stdout) :
  @visit R acc n out = (Normal (acc ++ contribution n), out).
Proof.
  destruct n as [names|[m|] names l|a|cls children]; simpl;
    try apply append_alias_names_eq.
  - destruct (Str.truthy m);
      [apply append_first_segment_eq | apply append_alias_names_eq].
  - unfold ret. rewrite app_nil_r. reflexivity.
  - unfold ret. rewrite app_nil_r. reflexivity.
Qed.

Lemma loop_eq {R} (nodes : list node) (acc : list string) (out : stdout) :
  @for_ R _ _ nodes acc visit out
  = (Normal (acc ++ List.flat_map contribution nodes), out).
Proof.
  revert acc. induction nodes as [|n nodes IH]; intros acc; simpl.
  - rewrite app_nil_r. reflexivity.
  - unfold bind. rewrite visit_eq, IH, <- app_assoc. reflexivity.
Qed.

(** ** The ways a call can end *)

(** One equation for the whole call, on any standard output.  A write
    that raises inside a handler is not caught by any clause. *)
Lemma extract_on_eq (console : Console) (rt : Runtime) (p : Path)
    (out : stdout) :
  extract_on console rt p out
  = match read_text rt p with
    | inr e =>
        if isinstance e Exception
        then match console (read_failed_line p e) with
             | None => (Returned [], out ++ [read_failed_line p e])
             | Some e' => (Raised e', out)
             end
        else (Raised e, out)
    | inl text =>
        match ast_parse rt text with
        | inr e =>
            if isinstance e SyntaxError
            then match console (syntax_error_line p) with
                 | None =>
                     match console (syntax_error_detail e) with
                     | None =>
                         (Returned [],
                          out ++ [syntax_error_line p; syntax_error_detail e])
                     | Some e' => (Raised e', out ++ [syntax_error_line p])
                     end
                 | Some e' => (Raised e', out)
                 end
            else if isinstance e Exception
            then match console (parse_failed_line p e) with
                 | None => (Returned [], out ++ [parse_failed_line p e])
                 | Some e' => (Raised e', out)
                 end
            else (Raised e, out)
        | inl tree => (Returned (list_of_set rt (collected tree)), out)
        end
    end.
Proof.
  unfold extract_on, call, get_import_name_from_py_file, bind, try_, print.
  destruct (read_text rt p) as [text|e]; simpl.
  - destruct (ast_parse rt text) as [tree|e]; simpl.
    + rewrite loop_eq. reflexivity.
    + destruct (isinstance e SyntaxError); simpl.
      * destruct (console (syntax_error_line p)); [reflexivity|].
        destruct (console (syntax_error_detail e)); [reflexivity|].
        rewrite <- app_assoc. reflexivity.
      * destruct (isinstance e Exception); simpl; [|reflexivity].
        destruct (console (parse_failed_line p e)); reflexivity.
  - destruct (isinstance e Exception); simpl; [|reflexivity].
    destruct (console (read_failed_line p e)); reflexivity.
Qed.

(** A file that is read and parsed gives the same on every standard
    output: nothing is printed. *)
Lemma extract_on_parsed (console : Console) (rt : Runtime) (p : Path)
    (tree : node) (out : stdout) :
  parses_to rt p tree ->
  extract_on console rt p out
  = (Returned (list_of_set rt (collected tree)), out).
Proof.
  intros (text & Hread & Hparse).
  rewrite extract_on_eq, Hread, Hparse. reflexivity.
Qed.

Lemma extract_parsed (rt : Runtime) (p : Path) (tree : node) (out : stdout) :
  parses_to rt p tree ->
  extract rt p out = (Returned (list_of_set rt (collected tree)), out).
Proof. apply extract_on_parsed. Qed.

Lemma extract_unreadable (rt : Runtime) (p : Path) (e : exn) (out : stdout) :
  read_text rt p = inr e -> is_failure e ->
  extract rt p out = (Returned [], out ++ [read_failed_line p e]).
Proof.
  intros Hread He. unfold extract. rewrite extract_on_eq, Hread, He.
  reflexivity.
Qed.

Lemma extract_syntax_error (rt : Runtime) (p : Path) (text : string)
    (e : exn) (out : stdout) :
  read_text rt p = inl text -> ast_parse rt text = inr e ->
  isinstance e SyntaxError = true ->
  extract rt p out
  = (Returned [], out ++ [syntax_error_line p; syntax_error_detail e]).
Proof.
  intros Hread Hparse He. unfold extract.
  rewrite extract_on_eq, Hread, Hparse, He. reflexivity.
Qed.

Lemma extract_unparsable (rt : Runtime) (p : Path) (text : string)
    (e : exn) (out : stdout) :
  read_text rt p = inl text -> ast_parse rt text = inr e ->
  isinstance e SyntaxError = false -> is_failure e ->
  extract rt p out = (Returned [], out ++ [parse_failed_line p e]).
Proof.
  intros Hread Hparse Hs He. unfold extract.
  rewrite extract_on_eq, Hread, Hparse, Hs, He. reflexivity.
Qed.

(** ** [ast.walk] *)

Lemma walk_queue_cons (n : node) (todo : list node) :
  walk_queue (n :: todo) = n :: walk_queue (todo ++ iter_child_nodes n).
Proof. simp walk_queue. reflexivity. Qed.

(** Induction along the loop of [ast.walk]. *)
Lemma walk_queue_induction (P : list node -> Prop) :
  P [] ->
  (forall n todo, P (todo ++ iter_child_nodes n) -> P (n :: todo)) ->
  forall todo, P todo.
Proof.
  intros Hnil Hstep todo.
  funelim (walk_queue todo); [exact Hnil|].
  apply Hstep. apply H; assumption.
Qed.

(** Every queued node is yielded. *)
Lemma walk_queue_queued (todo : list node) (n : node) :
  n ∈ todo -> n ∈ walk_queue todo.
Proof.
  induction todo as [|m todo IH] using walk_queue_induction; intros Hin.
  - exact Hin.
  - rewrite walk_queue_cons.
    apply elem_of_cons in Hin as [->|Hin]; [left|right].
    apply IH, elem_of_app. left. exact Hin.
Qed.

(** The children of a yielded node are yielded. *)
Lemma walk_queue_child (todo : list node) (n c : node) :
  n ∈ walk_queue todo -> c ∈ iter_child_nodes n -> c ∈ walk_queue todo.
Proof.
  induction todo as [|m todo IH] using walk_queue_induction; intros Hn Hc.
  - inversion Hn.
  - rewrite walk_queue_cons in *. right.
    apply elem_of_cons in Hn as [->|Hn].
    + apply walk_queue_queued, elem_of_app. right. exact Hc.
    + apply IH; assumption.
Qed.

(** A property that passes from a node to its children holds of every
    yielded node. *)
Lemma walk_queue_Forall (P : node -> Prop) (todo : list node) :
  (forall n, P n -> Forall P (iter_child_nodes n)) ->
  Forall P todo -> Forall P (walk_queue todo).
Proof.
  intros Hstep.
  induction todo as [|m todo IH] using walk_queue_induction; intros Hq.
  - constructor.
  - rewrite walk_queue_cons.
    apply Forall_cons in Hq as [Hm Hq]. constructor; [exact Hm|].
    apply IH, Forall_app. split; [exact Hq | apply Hstep, Hm].
Qed.

(** A relabelling of nodes that commutes with taking children commutes
    with the walk. *)
Lemma walk_queue_map (h : node -> node) (todo : list node) :
  (forall n, iter_child_nodes (h n) = List.map h (iter_child_nodes n)) ->
  walk_queue (List.map h todo) = List.map h (walk_queue todo).
Proof.
  intros Hh.
  induction todo as [|m todo IH] using walk_queue_induction.
  - reflexivity.
  - simpl. rewrite !walk_queue_cons, Hh, <- List.map_app, IH. reflexivity.
Qed.

Lemma ast_walk_root (tree : node) : tree ∈ ast_walk tree.
Proof. apply walk_queue_queued. left. Qed.

Lemma ast_walk_child (tree n c : node) :
  n ∈ ast_walk tree -> c ∈ iter_child_nodes n -> c ∈ ast_walk tree.
Proof. apply walk_queue_child. Qed.

Lemma ast_walk_map (h : node -> node) (tree : node) :
  (forall n, iter_child_nodes (h n) = List.map h (iter_child_nodes n)) ->
  ast_walk (h tree) = List.map h (ast_walk tree).
Proof. intros Hh. apply (walk_queue_map h [tree] Hh). Qed.


Lemma erase_levels_children (n : node) :
  iter_child_nodes (erase_levels n)
  = List.map erase_levels (iter_child_nodes n).
Proof.
  destruct n as [names|m names l|a|cls children]; simpl;
    rewrite ?List.map_map; reflexivity.
Qed.

(** ** What the loop collects *)

Lemma collected_elem (tree : node) (x : string) :
  x ∈ collected tree <->
  exists n, n ∈ ast_walk tree /\ x ∈ contribution n.
Proof.
  unfold collected. rewrite list_elem_of_In, in_flat_map.
  split; intros (n & Hn & Hx); exists n;
    [rewrite !list_elem_of_In | rewrite <- !list_elem_of_In]; auto.
Qed.

Lemma collected_map (h : node -> node) (tree : node) :
  (forall n, iter_child_nodes (h n) = List.map h (iter_child_nodes n)) ->
  (forall n, contribution (h n) = contribution n) ->
  collected (h tree) = collected tree.
Proof.
  intros Hch Hco. unfold collected. rewrite (ast_walk_map h tree Hch).
  induction (ast_walk tree) as [|n ns IH]; simpl; [reflexivity|].
  rewrite Hco, IH. reflexivity.
Qed.


Lemma collected_erase_levels (tree : node) :
  collected (erase_levels tree) = collected tree.
Proof.
  apply collected_map; [apply erase_levels_children|].
  intros [names|[m|] names l|a|cls children]; reflexivity.
Qed.

Lemma contribution_origin (x : string) (n : node) :
  x ∈ contribution n -> segment_of_name x n.
Proof.
  destruct n as [names|[m|] names l|a|cls children]; simpl;
    try (intros H; inversion H; fail).
  - rewrite list_elem_of_In, in_map_iff. intros (a & <- & Ha).
    exists a. rewrite list_elem_of_In. auto.
  - destruct (Str.truthy m).
    + intros H. apply list_elem_of_singleton in H as ->. left. eauto.
    + rewrite list_elem_of_In, in_map_iff. intros (a & <- & Ha).
      right. exists a. rewrite list_elem_of_In. auto.
  - rewrite list_elem_of_In, in_map_iff. intros (a & <- & Ha).
    right. exists a. rewrite list_elem_of_In. auto.
Qed.

Lemma truthy_nonempty (m : string) : m <> "" -> Str.truthy m = true.
Proof. destruct m; [congruence|reflexivity]. Qed.

(** A [from m import ...] with a module puts the first segment of [m]
    into the result. *)
Lemma module_segment_collected (tree : node) (m : string)
    (names : list alias) (level : nat) :
  ImportFrom (Some m) names level ∈ ast_walk tree -> m <> "" ->
  first_segment m ∈ collected tree.
Proof.
  intros Hn Hm. apply collected_elem. eexists. split; [exact Hn|].
  simpl. rewrite (truthy_nonempty m Hm). left.
Qed.

(** A plain [import] and a [from . import ...] without module put the
    first segment of every listed name into the result. *)
Lemma alias_segment_collected (tree n : node) (names : list alias)
    (a : alias) :
  n ∈ ast_walk tree ->
  (n = Import names \/ exists level, n = ImportFrom None names level) ->
  a ∈ names -> first_segment (name a) ∈ collected tree.
Proof.
  intros Hn Hshape Ha. apply collected_elem. exists n. split; [exact Hn|].
  assert (Hin : first_segment (name a)
                ∈ List.map (fun a => first_segment (name a)) names).
  { apply list_elem_of_In, in_map_iff. exists a.
    rewrite <- list_elem_of_In. auto. }
  destruct Hshape as [->|[level ->]]; exact Hin.
Qed.

(** ** [list(set(...))] *)

Lemma list_of_set_elem (rt : Runtime) (l : list string) (x : string) :
  x ∈ list_of_set rt l <-> x ∈ (list_to_set l : gset string).
Proof. rewrite (list_of_set_perm rt l). apply elem_of_elements. Qed.

Lemma list_of_set_NoDup (rt : Runtime) (l : list string) :
  NoDup (list_of_set rt l).
Proof. rewrite (list_of_set_perm rt l). apply NoDup_elements. Qed.

Lemma list_of_set_any_order (rt1 rt2 : Runtime) (l : list string) :
  list_of_set rt1 l ≡ₚ list_of_set rt2 l.
Proof.
  rewrite (list_of_set_perm rt1 l), (list_of_set_perm rt2 l). reflexivity.
Qed.


Lemma list_of_set_nil (rt : Runtime) : list_of_set rt [] = [].
Proof.
  apply Permutation_nil_r. rewrite (list_of_set_perm rt []). simpl.
  rewrite elements_empty. reflexivity.
Qed.

(** A list that only repeats [a] is the set [{a}]. *)
Lemma list_to_set_constant (a : string) (l : list string) :
  l <> [] -> (forall x, x ∈ l -> x = a) ->
  list_to_set l =@{gset string} {[a]}.
Proof.
  intros Hne Hall. apply set_eq. intros x.
  rewrite elem_of_list_to_set, elem_of_singleton. split; [apply Hall|].
  intros ->. destruct l as [|y l]; [congruence|].
  rewrite (Hall y) by left. left.
Qed.

Lemma list_of_set_constant (rt : Runtime) (a : string) (l : list string) :
  l <> [] -> (forall x, x ∈ l -> x = a) -> list_of_set rt l = [a].
Proof.
  intros Hne Hall. apply Permutation_singleton_r.
  rewrite (list_of_set_perm rt l), (list_to_set_constant a l Hne Hall).
  rewrite elements_singleton. reflexivity.
Qed.

(** ** One equation for the whole call *)

Lemma extract_eq (rt : Runtime) (p : Path) (out : stdout) :
  extract rt p out
  = match read_text rt p with
    | inr e =>
        if isinstance e Exception
        then (Returned [], out ++ [read_failed_line p e])
        else (Raised e, out)
    | inl text =>
        match ast_parse rt text with
        | inr e =>
            if isinstance e SyntaxError
            then (Returned [],
                  out ++ [syntax_error_line p; syntax_error_detail e])
            else if isinstance e Exception
            then (Returned [], out ++ [parse_failed_line p e])
            else (Raised e, out)
        | inl tree => (Returned (list_of_set rt (collected tree)), out)
        end
    end.
Proof. unfold extract. rewrite extract_on_eq. reflexivity. Qed.

(** An interrupt that arrives while the file is read is no failure of the
    read; no clause handles it. *)
Remark interrupt_passes_through (rt : Runtime) (p : Path) (msg : string)
    (out : stdout) :
  read_text rt p = inr (mkExn KeyboardInterrupt msg) ->
  extract rt p out = (Raised (mkExn KeyboardInterrupt msg), out).
Proof. intros H. rewrite extract_eq, H. reflexivity. Qed.

Lemma syntax_error_is_failure (e : exn) :
  isinstance e SyntaxError = true -> is_failure e.
Proof. destruct e as [[] msg]; vm_compute; congruence. Qed.

Lemma one_diagnostic_read (p : Path) (e : exn) :
  diagnostics [read_failed_line p e] = [read_failed_line p e].
Proof. reflexivity. Qed.

Lemma one_diagnostic_syntax (p : Path) (e : exn) :
  diagnostics [syntax_error_line p; syntax_error_detail e]
  = [syntax_error_line p].
Proof. reflexivity. Qed.

Lemma one_diagnostic_parse (p : Path) (e : exn) :
  diagnostics [parse_failed_line p e] = [parse_failed_line p e].
Proof. reflexivity. Qed.

(** ** Failures *)







(** ** The returned list *)

(** C3. The returned list has no repeated entry, whatever the input; when
    the file parses, it holds exactly the names the loop collected, each
    once. *)
Theorem result_has_no_duplicates (rt : Runtime) (p : Path) (out out' : stdout)
    (r : list string) :
  extract rt p out = (Returned r, out') ->
  NoDup r /\
  (forall tree, parses_to rt p tree ->
     forall x, x ∈ r <-> x ∈ collected tree).
Proof.
  intros Hcall. split.
  - rewrite extract_eq in Hcall.
    destruct (read_text rt p) as [text|e].
    + destruct (ast_parse rt text) as [tree|e].
      * injection Hcall as <- _. apply list_of_set_NoDup.
      * destruct (isinstance e SyntaxError);
          [|destruct (isinstance e Exception)];
          try discriminate Hcall; injection Hcall as <- _; constructor.
    + destruct (isinstance e Exception);
        try discriminate Hcall; injection Hcall as <- _; constructor.
  - intros tree Htree x.
    rewrite (extract_parsed rt p tree out Htree) in Hcall.
    injection Hcall as <- _.
    rewrite list_of_set_elem, elem_of_list_to_set. reflexivity.
Qed.

Lemma result_has_no_duplicates_witness :
  collected (Module_ [Import [mkAlias "a" None];
                      Import [mkAlias "a.b" None];
                      ImportFrom (Some "a") [mkAlias "x" None] 0])
  = ["a"; "a"; "a"] /\
  extract demo "dedup.py" [] = (Returned ["a"], []) /\
  NoDup ["a"] /\
  (forall tree, parses_to demo "dedup.py" tree ->
     forall x, x ∈ ["a"] <-> x ∈ collected tree).
Proof.
  split; [reflexivity|]. split; [vm_compute; reflexivity|].
  apply (result_has_no_duplicates demo "dedup.py" [] [] ["a"]).
  vm_compute. reflexivity.
Defined.

(** C8. Two calls on a file that was not modified in between agree: they
    return lists with exactly the same elements (or fail to return in the
    same way) and print the same lines, whatever was printed before and
    in whatever order each call lists its set. *)
Theorem repeated_call_same_set (rt1 rt2 : Runtime) (p : Path)
    (out1 out2 : stdout) :
  read_text rt1 p = read_text rt2 p ->
  (forall text, ast_parse rt1 text = ast_parse rt2 text) ->
  same_outcome (extract rt1 p out1).1 (extract rt2 p out2).1 /\
  exists printed,
    (extract rt1 p out1).2 = out1 ++ printed /\
    (extract rt2 p out2).2 = out2 ++ printed.
Proof.
  intros Hread Hparse. rewrite !extract_eq, <- Hread.
  destruct (read_text rt1 p) as [text|e].
  - rewrite <- Hparse. destruct (ast_parse rt1 text) as [tree|e].
    + simpl. split; [apply list_of_set_any_order|].
      exists []. rewrite !app_nil_r. auto.
    + destruct (isinstance e SyntaxError);
        [|destruct (isinstance e Exception)]; simpl;
        (split; [reflexivity|]); eauto.
      exists []. rewrite !app_nil_r. auto.
  - destruct (isinstance e Exception); simpl;
      (split; [reflexivity|]); eauto.
    exists []. rewrite !app_nil_r. auto.
Qed.

Lemma repeated_call_same_set_witness :
  extract demo "mixed.py" [] = (Returned ["os"; "helper"; "pathlib"], []) /\
  extract (reversed_runtime demo) "mixed.py" ["first call done"]
  = (Returned ["pathlib"; "helper"; "os"], ["first call done"]) /\
  same_outcome (extract demo "mixed.py" []).1
    (extract (reversed_runtime demo) "mixed.py" ["first call done"]).1 /\
  exists printed,
    (extract demo "mixed.py" []).2 = [] ++ printed /\
    (extract (reversed_runtime demo) "mixed.py" ["first call done"]).2
    = ["first call done"] ++ printed.
Proof.
  split; [vm_compute; reflexivity|]. split; [vm_compute; reflexivity|].
  apply (repeated_call_same_set demo (reversed_runtime demo) "mixed.py"
           [] ["first call done"]).
  - reflexivity.
  - intros text. reflexivity.
Defined.

(** ** Which names are collected *)

(** When every collected name is [a] and there is one, the result is
    [[a]]. *)
Lemma result_singleton (rt : Runtime) (p : Path) (tree : node) (a : string)
    (out : stdout) :
  parses_to rt p tree ->
  (exists x, x ∈ collected tree) ->
  (forall x, x ∈ collected tree -> x = a) ->
  extract rt p out = (Returned [a], out).
Proof.
  intros Htree [x Hx] Hall. rewrite (extract_parsed rt p tree out Htree).
  rewrite (list_of_set_constant rt a (collected tree));
    [reflexivity| |exact Hall].
  intros Hnil. rewrite Hnil in Hx. inversion Hx.
Qed.

(** C4. A file that parses, whose import statements are all plain
    imports of dotted names starting with the segment [a] ([import a],
    [import a.b], [import a.b.c], ...), and that has at least one of
    them, gives exactly [[a]]. *)
Theorem plain_imports_give_first_segment (rt : Runtime) (p : Path)
    (tree : node) (a : string) (out : stdout) :
  parses_to rt p tree ->
  Str.contains dot a = false ->
  (forall n, n ∈ ast_walk tree ->
     match n with
     | Import names =>
         forall al, al ∈ names ->
           exists rest, name al = Str.join dot (a :: rest)
     | ImportFrom _ _ _ => False
     | _ => True
     end) ->
  (exists names al, Import names ∈ ast_walk tree /\ al ∈ names) ->
  extract rt p out = (Returned [a], out).
Proof.
  intros Htree Ha Hall (names & al & Hn & Hal).
  apply (result_singleton rt p tree a out Htree).
  - exists (first_segment (name al)).
    eapply alias_segment_collected; [exact Hn|left; reflexivity|exact Hal].
  - intros x Hx. apply collected_elem in Hx as (n & Hwalk & Hx).
    specialize (Hall n Hwalk). apply contribution_origin in Hx.
    destruct n as [ns|m ns l|al'|cls children]; simpl in Hx;
      try contradiction.
    destruct Hx as (al' & Hal' & ->).
    destruct (Hall al' Hal') as [rest ->].
    apply first_segment_join, Ha.
Qed.

Lemma plain_imports_give_first_segment_witness :
  extract demo "plain.py" [] = (Returned ["a"], []).
Proof.
  apply (plain_imports_give_first_segment demo "plain.py"
           (Module_ [Import [mkAlias "a" None];
                     Import [mkAlias "a.b" None];
                     Import [mkAlias "a.b.c" None]]) "a" []).
  - eexists. split; reflexivity.
  - reflexivity.
  - apply Forall_forall.
    set (nodes := ast_walk _). vm_compute in nodes. subst nodes.
    repeat (first [apply Forall_nil_2 | apply Forall_cons_2]);
      try exact I; intros al Hal;
      apply list_elem_of_singleton in Hal as ->.
    + exists []. reflexivity.
    + exists ["b"]. reflexivity.
    + exists ["b"; "c"]. reflexivity.
  - exists [mkAlias "a" None], (mkAlias "a" None). split.
    + apply list_elem_of_In. vm_compute. auto.
    + left.
Defined.

(** C5. In a file that parses, every [from X import ...] statement that
    names a module [X] puts the first dot-separated segment of [X] into
    the result; a file that consists of [from a.b import c] gives exactly
    [["a"]]. *)
Theorem from_import_gives_module_segment (rt : Runtime) (p : Path)
    (tree : node) (out : stdout) :
  parses_to rt p tree ->
  (exists r,
     extract rt p out = (Returned r, out) /\
     forall X names level,
       ImportFrom (Some X) names level ∈ ast_walk tree -> X <> "" ->
       first_segment X ∈ r) /\
  (forall asn level,
     tree = Module_ [ImportFrom (Some "a.b") [mkAlias "c" asn] level] ->
     extract rt p out = (Returned ["a"], out)).
Proof.
  intros Htree. split.
  - eexists. split; [apply extract_parsed, Htree|].
    intros X names level Hn HX.
    rewrite list_of_set_elem, elem_of_list_to_set.
    eapply module_segment_collected; eassumption.
  - intros asn level ->. apply (result_singleton rt p _ "a" out Htree).
    + exists "a". left.
    + intros x Hx. apply list_elem_of_singleton in Hx. exact Hx.
Qed.

Lemma from_import_gives_module_segment_witness :
  (exists r,
     extract demo "mixed.py" [] = (Returned r, []) /\
     forall X names level,
       ImportFrom (Some X) names level
       ∈ ast_walk (Module_ [Import [mkAlias "os" None];
                            ImportFrom (Some "pathlib") [mkAlias "Path" None] 0;
                            ImportFrom None [mkAlias "helper" None] 1]) ->
       X <> "" -> first_segment X ∈ r) /\
  extract demo "from_abs.py" [] = (Returned ["a"], []).
Proof.
  split.
  - apply (from_import_gives_module_segment demo "mixed.py" _ []).
    eexists. split; reflexivity.
  - apply (proj2 (from_import_gives_module_segment demo "from_abs.py"
                    (Module_ [ImportFrom (Some "a.b") [mkAlias "c" None] 0])
                    []
                    (ex_intro _ "from a.b import c" (conj eq_refl eq_refl)))
             None 0).
    reflexivity.
Defined.

(** C6. In a file that parses, a relative import without a module name
    ([from . import Y], [from .. import Y]) puts the first segment of
    every imported name into the result; a file that consists of
    [from . import c] gives [["c"]], one that consists of
    [from .. import c, d] gives the two names [c] and [d]. *)
Theorem relative_import_gives_names (rt : Runtime) (p : Path) (tree : node)
    (out : stdout) :
  parses_to rt p tree ->
  (exists r,
     extract rt p out = (Returned r, out) /\
     forall names level Y,
       ImportFrom None names level ∈ ast_walk tree -> Y ∈ names ->
       first_segment (name Y) ∈ r) /\
  (forall asn level,
     tree = Module_ [ImportFrom None [mkAlias "c" asn] level] ->
     extract rt p out = (Returned ["c"], out)) /\
  (forall asn1 asn2 level,
     tree = Module_ [ImportFrom None [mkAlias "c" asn1; mkAlias "d" asn2]
                       level] ->
     exists r, extract rt p out = (Returned r, out) /\ r ≡ₚ ["c"; "d"]).
Proof.
  intros Htree. split; [|split].
  - eexists. split; [apply extract_parsed, Htree|].
    intros names level Y Hn HY.
    rewrite list_of_set_elem, elem_of_list_to_set.
    eapply alias_segment_collected; [exact Hn|right; eauto|exact HY].
  - intros asn level ->. apply (result_singleton rt p _ "c" out Htree).
    + exists "c". left.
    + intros x Hx. apply list_elem_of_singleton in Hx. exact Hx.
  - intros asn1 asn2 level ->. eexists. split; [apply extract_parsed, Htree|].
    rewrite list_of_set_perm.
    change (collected _) with ["c"; "d"].
    apply elements_list_to_set.
    apply NoDup_cons. split; [|apply NoDup_singleton].
    intros H. apply list_elem_of_singleton in H. discriminate H.
Qed.

Lemma relative_import_gives_names_witness :
  extract demo "from_dot.py" [] = (Returned ["c"], []) /\
  exists r, extract demo "from_dotdot.py" [] = (Returned r, []) /\
            r ≡ₚ ["c"; "d"].
Proof.
  split.
  - apply (proj1 (proj2 (relative_import_gives_names demo "from_dot.py"
                           (Module_ [ImportFrom None [mkAlias "c" None] 1]) []
                           (ex_intro _ "from . import c"
                              (conj eq_refl eq_refl))))
             None 1).
    reflexivity.
  - apply (proj2 (proj2 (relative_import_gives_names demo "from_dotdot.py"
                           (Module_ [ImportFrom None
                                       [mkAlias "c" None; mkAlias "d" None] 2])
                           []
                           (ex_intro _ "from .. import c, d"
                              (conj eq_refl eq_refl))))
             None None 2).
    reflexivity.
Defined.

(** C9. The relative level of a [from X import ...] statement is never
    looked at: a statement that names a module [X] puts the first segment
    of [X] into the result at every level, two files whose trees differ
    in levels only give the same result, and a file that consists of
    [from .sibling import x] gives [["sibling"]]. *)
Theorem level_is_ignored (rt : Runtime) (p : Path) (tree : node)
    (out : stdout) :
  parses_to rt p tree ->
  (exists r,
     extract rt p out = (Returned r, out) /\
     forall level X names,
       ImportFrom (Some X) names level ∈ ast_walk tree -> X <> "" ->
       first_segment X ∈ r) /\
  (forall p' tree',
     parses_to rt p' tree' -> erase_levels tree' = erase_levels tree ->
     extract rt p' out = extract rt p out) /\
  (forall asn level,
     tree = Module_ [ImportFrom (Some "sibling") [mkAlias "x" asn] level] ->
     extract rt p out = (Returned ["sibling"], out)).
Proof.
  intros Htree. split; [|split].
  - eexists. split; [apply extract_parsed, Htree|].
    intros level X names Hn HX.
    rewrite list_of_set_elem, elem_of_list_to_set.
    eapply module_segment_collected; eassumption.
  - intros p' tree' Htree' Hsame.
    rewrite (extract_parsed rt p tree out Htree).
    rewrite (extract_parsed rt p' tree' out Htree').
    rewrite <- (collected_erase_levels tree'), Hsame, collected_erase_levels.
    reflexivity.
  - intros asn level ->. apply (result_singleton rt p _ "sibling" out Htree).
    + exists "sibling". left.
    + intros x Hx. apply list_elem_of_singleton in Hx. exact Hx.
Qed.

Lemma level_is_ignored_witness :
  extract demo "from_sibling_abs.py" [] = extract demo "from_sibling.py" [] /\
  extract demo "from_sibling.py" [] = (Returned ["sibling"], []).
Proof.
  pose proof (level_is_ignored demo "from_sibling.py"
                (Module_ [ImportFrom (Some "sibling") [mkAlias "x" None] 1])
                []
                (ex_intro _ "from .sibling import x" (conj eq_refl eq_refl)))
    as (_ & Hlevels & Hsibling).
  split.
  - apply (Hlevels "from_sibling_abs.py"
             (Module_ [ImportFrom (Some "sibling") [mkAlias "x" None] 0])).
    + eexists. split; reflexivity.
    + reflexivity.
  - apply (Hsibling None 1). reflexivity.
Defined.



(** ** Identifiers *)

Lemma id_continue_not_dot (c : ascii) :
  is_id_continue c = true -> Ascii.eqb c dot = false.
Proof.
  intros H. destruct (Ascii.eqb_spec c dot) as [->|]; [|reflexivity].
  vm_compute in H. discriminate H.
Qed.

Lemma id_start_continue (c : ascii) :
  is_id_start c = true -> is_id_continue c = true.
Proof. unfold is_id_continue. intros ->. reflexivity. Qed.

Lemma all_id_continue_no_dot (s : string) :
  all_chars is_id_continue s = true -> Str.contains dot s = false.
Proof.
  induction s as [|c s IH]; simpl; [reflexivity|].
  intros H. apply andb_true_iff in H as [Hc Hs].
  rewrite (id_continue_not_dot c Hc), (IH Hs). reflexivity.
Qed.

Lemma identifier_no_dot (s : string) :
  is_identifier s = true -> Str.contains dot s = false.
Proof.
  destruct s as [|c s]; simpl; [reflexivity|].
  intros H. apply andb_true_iff in H as [Hc Hs].
  rewrite (id_continue_not_dot c (id_start_continue c Hc)).
  apply all_id_continue_no_dot, Hs.
Qed.

Lemma identifier_nonempty (s : string) : is_identifier s = true -> s <> "".
Proof. destruct s; [discriminate|discriminate]. Qed.

Lemma dotted_name_first_segment (s : string) :
  is_dotted_name s = true -> is_identifier (first_segment s) = true.
Proof.
  unfold is_dotted_name, first_segment.
  pose proof (split_nonempty dot s) as Hne.
  destruct (Str.split dot s) as [|seg segs]; [congruence|].
  simpl. intros H. apply andb_true_iff in H as [H _]. exact H.
Qed.

Lemma from_name_first_segment (s : string) :
  is_from_name s = true ->
  is_identifier (first_segment s) = true \/ s = "*".
Proof.
  unfold is_from_name. intros H. apply orb_true_iff in H as [H|H].
  - left. unfold first_segment.
    rewrite (split_no_sep dot s (identifier_no_dot s H)). exact H.
  - right. apply String.eqb_eq in H. exact H.
Qed.

Lemma well_formed_walk (tree : node) :
  well_formed tree = true ->
  Forall (fun n => well_formed_import n = true) (ast_walk tree).
Proof.
  intros Hwf.
  eapply Forall_impl with (P := fun n => well_formed n = true).
  - apply walk_queue_Forall; [|repeat constructor; exact Hwf].
    intros [names|m names l|a|cls children] Hn; simpl.
    + apply Forall_forall. intros c Hc.
      apply list_elem_of_In, in_map_iff in Hc as (a & <- & _). reflexivity.
    + apply Forall_forall. intros c Hc.
      apply list_elem_of_In, in_map_iff in Hc as (a & <- & _). reflexivity.
    + constructor.
    + simpl in Hn. apply Forall_forall. intros c Hc.
      apply list_elem_of_In in Hc.
      exact (proj1 (forallb_forall _ _) Hn c Hc).
  - intros n Hn. destruct n; try reflexivity; simpl in Hn;
      apply andb_true_iff in Hn as [Hn _]; exact Hn.
Qed.

(** C2, as the code has it.  Every returned string is free of dots.  When
    the names in the tree obey the grammar of import statements, every
    returned string is moreover not empty, and it is an identifier or the
    wildcard [*]; the wildcard is returned only for a relative
    [from . import *] without module name. *)
Theorem result_strings_are_segments (rt : Runtime) (p : Path) (tree : node)
    (out out' : stdout) (r : list string) :
  parses_to rt p tree ->
  extract rt p out = (Returned r, out') ->
  forall x, x ∈ r ->
    Str.contains dot x = false /\
    (well_formed tree = true ->
     x <> "" /\
     (is_identifier x = true \/
      x = "*" /\
      exists names level Y,
        ImportFrom None names level ∈ ast_walk tree /\
        Y ∈ names /\ name Y = "*")).
Proof.
  intros Htree Hcall x Hx.
  rewrite (extract_parsed rt p tree out Htree) in Hcall.
  injection Hcall as <- _.
  rewrite list_of_set_elem, elem_of_list_to_set in Hx.
  apply collected_elem in Hx as (n & Hn & Hx).
  pose proof (contribution_origin x n Hx) as Horigin.
  split.
  - destruct n as [names|m names l|a|cls children]; simpl in Horigin;
      try contradiction.
    + destruct Horigin as (a & _ & ->). apply first_segment_no_dot.
    + destruct Horigin as [(m' & _ & ->)|(a & _ & ->)];
        apply first_segment_no_dot.
  - intros Hwf.
    pose proof (proj1 (Forall_forall _ _) (well_formed_walk tree Hwf) n Hn)
      as Hgrammar.
    assert (Hid : forall s, is_dotted_name s = true ->
                    first_segment s <> "" /\
                    (is_identifier (first_segment s) = true \/
                     first_segment s = "*" /\
                     exists names level Y,
                       ImportFrom None names level ∈ ast_walk tree /\
                       Y ∈ names /\ name Y = "*")).
    { intros s Hs. apply dotted_name_first_segment in Hs.
      split; [apply identifier_nonempty, Hs | left; exact Hs]. }
    destruct n as [names|[m|] names l|a|cls children]; simpl in Hx;
      try (inversion Hx; fail); simpl in Hgrammar.
    + apply list_elem_of_In, in_map_iff in Hx as (a & <- & Ha).
      apply Hid. exact (proj1 (forallb_forall _ _) Hgrammar a Ha).
    + apply andb_true_iff in Hgrammar as [Hm _].
      destruct m as [|c m]; [discriminate Hm|].
      simpl in Hx. apply list_elem_of_singleton in Hx as ->.
      apply Hid, Hm.
    + apply list_elem_of_In, in_map_iff in Hx as (a & <- & Ha).
      pose proof (proj1 (forallb_forall _ _) Hgrammar a Ha) as Hname.
      destruct (from_name_first_segment _ Hname) as [Hident|Hstar].
      * split; [apply identifier_nonempty, Hident | left; exact Hident].
      * rewrite Hstar. split; [discriminate|]. right. split; [reflexivity|].
        exists names, l, a. split; [exact Hn|].
        split; [apply list_elem_of_In, Ha | exact Hstar].
Qed.

Lemma result_strings_are_segments_witness :
  extract demo "mixed.py" [] = (Returned ["os"; "helper"; "pathlib"], []) /\
  Str.contains dot "helper" = false /\
  "helper" <> "" /\
  (is_identifier "helper" = true \/
   "helper" = "*" /\
   exists names level Y,
     ImportFrom None names level
     ∈ ast_walk (Module_ [Import [mkAlias "os" None];
                          ImportFrom (Some "pathlib") [mkAlias "Path" None] 0;
                          ImportFrom None [mkAlias "helper" None] 1]) /\
     Y ∈ names /\ name Y = "*").
Proof.
  assert (Hcall : extract demo "mixed.py" []
                  = (Returned ["os"; "helper"; "pathlib"], []))
    by (vm_compute; reflexivity).
  split; [exact Hcall|].
  destruct (result_strings_are_segments demo "mixed.py"
              (Module_ [Import [mkAlias "os" None];
                        ImportFrom (Some "pathlib") [mkAlias "Path" None] 0;
                        ImportFrom None [mkAlias "helper" None] 1])
              [] [] ["os"; "helper"; "pathlib"]
              (ex_intro _ (lines ["import os"; "from pathlib import Path";
                                  "from . import helper"])
                 (conj eq_refl eq_refl))
              Hcall "helper")
    as [Hdot Hwf].
  - right. left.
  - split; [exact Hdot|]. apply Hwf. reflexivity.
Defined.

(** The claim C2 as the specification words it fails: [from . import *]
    parses, its names obey the grammar, and the call returns the string
    [*], which has no dot and is not empty but is no identifier. *)
Lemma star_is_not_an_identifier :
  parses_to demo "star.py" (Module_ [ImportFrom None [mkAlias "*" None] 1]) /\
  well_formed (Module_ [ImportFrom None [mkAlias "*" None] 1]) = true /\
  extract demo "star.py" [] = (Returned ["*"], []) /\
  is_identifier "*" = false /\
  ~ (forall rt p tree out r,
       parses_to rt p tree -> well_formed tree = true ->
       extract rt p out = (Returned r, out) ->
       forall x, x ∈ r -> is_identifier x = true).
Proof.
  assert (Hparse : parses_to demo "star.py"
                     (Module_ [ImportFrom None [mkAlias "*" None] 1])).
  { exists "from . import *". split; reflexivity. }
  assert (Hcall : extract demo "star.py" [] = (Returned ["*"], [])).
  { vm_compute. reflexivity. }
  split; [exact Hparse|]. split; [reflexivity|]. split; [exact Hcall|].
  split; [reflexivity|].
  intros Hclaim.
  assert (Hstar : is_identifier "*" = true).
  { apply (Hclaim demo "star.py" _ [] ["*"] Hparse eq_refl Hcall "*"). left. }
  discriminate Hstar.
Qed.

(** * Further properties of the extractor *)

(** ** [ast.walk] yields the nodes of the tree and nothing else *)

Lemma walk_queue_sound (todo : list node) (n : node) :
  n ∈ walk_queue todo -> exists t, t ∈ todo /\ subnode n t.
Proof.
  induction todo as [|m todo IH] using walk_queue_induction; intros Hn.
  - inversion Hn.
  - rewrite walk_queue_cons in Hn. apply elem_of_cons in Hn as [->|Hn].
    + exists m. split; [left|constructor].
    + destruct (IH Hn) as (t & Ht & Hsub).
      apply elem_of_app in Ht as [Ht|Ht].
      * exists t. split; [right; exact Ht|exact Hsub].
      * exists m. split; [left|]. eapply subnode_below; eassumption.
Qed.

Lemma walk_queue_complete (todo : list node) (n t : node) :
  subnode n t -> t ∈ walk_queue todo -> n ∈ walk_queue todo.
Proof.
  induction 1 as [n|n c t Hc Hsub IH]; intros Ht; [exact Ht|].
  apply IH. eapply walk_queue_child; eassumption.
Qed.

Lemma ast_walk_subnode (tree n : node) :
  n ∈ ast_walk tree <-> subnode n tree.
Proof.
  split.
  - intros Hn. apply walk_queue_sound in Hn as (t & Ht & Hsub).
    apply list_elem_of_singleton in Ht as ->. exact Hsub.
  - intros Hsub. eapply walk_queue_complete; [exact Hsub|].
    apply ast_walk_root.
Qed.

Lemma subnode_Other (n : node) (cls : string) (children : list node) :
  subnode n (Other cls children) <->
  n = Other cls children \/ exists c, c ∈ children /\ subnode n c.
Proof.
  split.
  - inversion 1; subst; [left; reflexivity|right; eauto].
  - intros [->|(c & Hc & Hsub)]; [constructor|].
    eapply subnode_below; [exact Hc|exact Hsub].
Qed.

Lemma collected_subnode (tree : node) (x : string) :
  x ∈ collected tree <->
  exists n, subnode n tree /\ x ∈ contribution n.
Proof.
  rewrite collected_elem. split; intros (n & Hn & Hx); exists n;
    (split; [apply ast_walk_subnode, Hn|exact Hx]).
Qed.


Lemma collected_Other (cls : string) (children : list node) (x : string) :
  x ∈ collected (Other cls children) <->
  exists c, c ∈ children /\ x ∈ collected c.
Proof.
  rewrite collected_subnode. split.
  - intros (n & Hn & Hx). apply subnode_Other in Hn as [->|(c & Hc & Hn)].
    + inversion Hx.
    + exists c. split; [exact Hc|]. apply collected_subnode. eauto.
  - intros (c & Hc & Hx). apply collected_subnode in Hx as (n & Hn & Hx).
    exists n. split; [|exact Hx]. apply subnode_Other. right. eauto.
Qed.

(** X1. Import statements are found at any depth.  In a file that parses,
    every import statement below the root, however deeply nested,
    contributes: a plain [import] and a module-less [from . import] the
    first segment of each listed name, a [from X import] with a module
    the first segment of [X].  Conversely every returned string is
    contributed by an import statement of the tree. *)
Theorem imports_found_at_any_depth (rt : Runtime) (p : Path) (tree : node)
    (out : stdout) :
  parses_to rt p tree ->
  exists r,
    extract rt p out = (Returned r, out) /\
    (forall names a,
       subnode (Import names) tree -> a ∈ names ->
       first_segment (name a) ∈ r) /\
    (forall X names level,
       subnode (ImportFrom (Some X) names level) tree -> X <> "" ->
       first_segment X ∈ r) /\
    (forall names level a,
       subnode (ImportFrom None names level) tree -> a ∈ names ->
       first_segment (name a) ∈ r) /\
    (forall x, x ∈ r ->
       exists n, subnode n tree /\ is_import n = true /\
                 segment_of_name x n).
Proof.
  intros Htree. eexists. split; [apply extract_parsed, Htree|].
  split; [|split; [|split]].
  - intros names a Hn Ha. rewrite list_of_set_elem, elem_of_list_to_set.
    apply ast_walk_subnode in Hn.
    eapply alias_segment_collected; [exact Hn|left; reflexivity|exact Ha].
  - intros X names level Hn HX. rewrite list_of_set_elem, elem_of_list_to_set.
    apply ast_walk_subnode in Hn.
    eapply module_segment_collected; eassumption.
  - intros names level a Hn Ha. rewrite list_of_set_elem, elem_of_list_to_set.
    apply ast_walk_subnode in Hn.
    eapply alias_segment_collected; [exact Hn|right; eauto|exact Ha].
  - intros x Hx. rewrite list_of_set_elem, elem_of_list_to_set in Hx.
    apply collected_subnode in Hx as (n & Hn & Hx).
    exists n. split; [exact Hn|].
    split; [|apply contribution_origin, Hx].
    destruct n; try reflexivity; inversion Hx.
Qed.

Lemma imports_found_at_any_depth_witness :
  exists r,
    extract quiet "guarded.py" [] = (Returned r, []) /\
    "ujson" ∈ r /\ "compat" ∈ r.
Proof.
  destruct (imports_found_at_any_depth quiet "guarded.py"
              (Module_ [Other "Try"
                          [Import [mkAlias "ujson.fast" (Some "json")];
                           Other "ExceptHandler"
                             [Other "Name" [Other "Load" []];
                              ImportFrom None [mkAlias "compat" None] 1]]])
              []
              (ex_intro _ _ (conj eq_refl eq_refl)))
    as (r & Hcall & Himport & _ & Hrelative & _).
  exists r. split; [exact Hcall|]. split.
  - apply (Himport [mkAlias "ujson.fast" (Some "json")]
             (mkAlias "ujson.fast" (Some "json"))); [|left].
    eapply subnode_below; [left|].
    eapply subnode_below; [left|]. constructor.
  - apply (Hrelative [mkAlias "compat" None] 1 (mkAlias "compat" None));
      [|left].
    eapply subnode_below; [left|].
    eapply subnode_below; [right; left|].
    eapply subnode_below; [right; left|]. constructor.
Defined.

(** X2. A file that parses and has no import statement anywhere gives the
    empty list and prints nothing; and a parsed file gives the empty list
    only when no import statement contributes a name. *)
Theorem no_imports_no_names (rt : Runtime) (p : Path) (tree : node)
    (out : stdout) :
  parses_to rt p tree ->
  ((forall n, subnode n tree -> is_import n = false) ->
   extract rt p out = (Returned [], out)) /\
  (extract rt p out = (Returned [], out) ->
   forall n x, subnode n tree -> ~ x ∈ contribution n).
Proof.
  intros Htree. rewrite (extract_parsed rt p tree out Htree). split.
  - intros Hnone.
    assert (Hempty : collected tree = []).
    { destruct (collected tree) as [|x xs] eqn:Hc; [reflexivity|].
      assert (Hx : x ∈ collected tree) by (rewrite Hc; left).
      apply collected_subnode in Hx as (n & Hn & Hx).
      specialize (Hnone n Hn).
      destruct n; try discriminate Hnone; inversion Hx. }
    rewrite Hempty, list_of_set_nil. reflexivity.
  - intros Hcall n x Hn Hx.
    assert (Hin : x ∈ list_of_set rt (collected tree)).
    { rewrite list_of_set_elem, elem_of_list_to_set.
      apply collected_subnode. eauto. }
    injection Hcall as Hr. rewrite Hr in Hin. inversion Hin.
Qed.

Lemma no_imports_no_names_witness :
  extract quiet "quiet.py" ["banner"] = (Returned [], ["banner"]).
Proof.
  apply (no_imports_no_names quiet "quiet.py" _ ["banner"]
           (ex_intro _ _ (conj eq_refl eq_refl))).
  intros n Hn. apply ast_walk_subnode in Hn.
  revert n Hn. apply Forall_forall.
  set (nodes := ast_walk _). vm_compute in nodes. subst nodes.
  repeat (first [apply Forall_nil_2 | apply Forall_cons_2]); reflexivity.
Defined.



(** X4. Files compose: the names returned for a file whose body is the
    body of one file followed by the body of another are exactly the
    names returned for the one or for the other. *)
Theorem concatenated_bodies_give_union (rt : Runtime) (p1 p2 p12 : Path)
    (body1 body2 : list node) (out : stdout) :
  parses_to rt p1 (Module_ body1) -> parses_to rt p2 (Module_ body2) ->
  parses_to rt p12 (Module_ (body1 ++ body2)) ->
  exists r1 r2 r12,
    extract rt p1 out = (Returned r1, out) /\
    extract rt p2 out = (Returned r2, out) /\
    extract rt p12 out = (Returned r12, out) /\
    forall x, x ∈ r12 <-> x ∈ r1 \/ x ∈ r2.
Proof.
  intros H1 H2 H12. eexists _, _, _.
  split; [apply extract_parsed, H1|].
  split; [apply extract_parsed, H2|].
  split; [apply extract_parsed, H12|].
  intros x. rewrite !list_of_set_elem, !elem_of_list_to_set.
  unfold Module_. rewrite !collected_Other. split.
  - intros (c & Hc & Hx). apply elem_of_app in Hc as [Hc|Hc]; eauto.
  - intros [(c & Hc & Hx)|(c & Hc & Hx)]; exists c;
      (split; [apply elem_of_app; auto|exact Hx]).
Qed.

Lemma concatenated_bodies_give_union_witness :
  exists r1 r2 r12,
    extract quiet "os.py" [] = (Returned r1, []) /\
    extract quiet "sys.py" [] = (Returned r2, []) /\
    extract quiet "os_sys.py" [] = (Returned r12, []) /\
    forall x, x ∈ r12 <-> x ∈ r1 \/ x ∈ r2.
Proof.
  apply (concatenated_bodies_give_union quiet "os.py" "sys.py" "os_sys.py"
           [Import [mkAlias "os" None]] [Import [mkAlias "sys" None]] []).
  - eexists. split; reflexivity.
  - eexists. split; reflexivity.
  - eexists. split; reflexivity.
Defined.

Lemma not_failure_not_syntax_error (e : exn) :
  isinstance e Exception = false -> isinstance e SyntaxError = false.
Proof.
  intros He. destruct (isinstance e SyntaxError) eqn:Hs; [|reflexivity].
  apply syntax_error_is_failure in Hs. unfold is_failure in Hs. congruence.
Qed.

(** X5. Interrupts and exit requests are not swallowed: an exception that
    is no instance of [Exception], raised while the file is read or while
    it is parsed, reaches the caller unchanged, and nothing is printed. *)
Theorem interrupts_are_not_swallowed (rt : Runtime) (p : Path) (e : exn)
    (out : stdout) :
  isinstance e Exception = false ->
  (read_text rt p = inr e \/
   exists text, read_text rt p = inl text /\ ast_parse rt text = inr e) ->
  extract rt p out = (Raised e, out).
Proof.
  intros He [Hread|(text & Hread & Hparse)]; rewrite extract_eq, Hread.
  - rewrite He. reflexivity.
  - rewrite Hparse, (not_failure_not_syntax_error e He), He. reflexivity.
Qed.

Lemma interrupts_are_not_swallowed_witness :
  extract quiet "slow_read.py" ["banner"]
  = (Raised (mkExn KeyboardInterrupt ""), ["banner"]) /\
  extract quiet "slow_parse.py" ["banner"]
  = (Raised (mkExn KeyboardInterrupt ""), ["banner"]).
Proof.
  split.
  - apply (interrupts_are_not_swallowed quiet "slow_read.py"
             (mkExn KeyboardInterrupt "") ["banner"]); [reflexivity|].
    left. reflexivity.
  - apply (interrupts_are_not_swallowed quiet "slow_parse.py"
             (mkExn KeyboardInterrupt "") ["banner"]); [reflexivity|].
    right. exists "while True: pass". split; reflexivity.
Defined.

Lemma first_segment_cons (c : ascii) (s : string) :
  first_segment (String c s)
  = if Ascii.eqb c dot then "" else String c (first_segment s).
Proof.
  unfold first_segment. simpl. destruct (Ascii.eqb c dot); [reflexivity|].
  pose proof (split_nonempty dot s) as Hne.
  destruct (Str.split dot s); [congruence|reflexivity].
Qed.

(** [s.split('.')[0]] is [s] up to its first dot. *)
Lemma first_segment_prefix (s : string) :
  s = first_segment s \/
  exists rest, s = first_segment s +:+ String dot rest.
Proof.
  induction s as [|c s IH]; [left; reflexivity|].
  rewrite first_segment_cons.
  destruct (Ascii.eqb_spec c dot) as [->|Hc].
  - right. exists s. reflexivity.
  - destruct IH as [IH|[rest IH]].
    + left. f_equal. exact IH.
    + right. exists rest.
      change (String c s = String c (first_segment s +:+ String dot rest)).
      f_equal. exact IH.
Qed.

(** X6. Every returned string is the beginning, up to the first dot, of a
    name that an import statement of the file imports or imports from:
    that name is the string itself or the string followed by a dot and
    more. *)
Theorem result_is_name_up_to_first_dot (rt : Runtime) (p : Path)
    (tree : node) (out out' : stdout) (r : list string) :
  parses_to rt p tree ->
  extract rt p out = (Returned r, out') ->
  forall x, x ∈ r ->
    Str.contains dot x = false /\
    exists n s,
      subnode n tree /\ name_field s n /\
      (s = x \/ exists rest, s = x +:+ String dot rest).
Proof.
  intros Htree Hcall x Hx.
  rewrite (extract_parsed rt p tree out Htree) in Hcall.
  injection Hcall as <- _.
  rewrite list_of_set_elem, elem_of_list_to_set in Hx.
  apply collected_subnode in Hx as (n & Hn & Hx).
  apply contribution_origin in Hx.
  assert (Hfield : exists s, name_field s n /\ x = first_segment s).
  { destruct n as [names|m names l|a|cls children]; simpl in Hx;
      try contradiction.
    - destruct Hx as (a & Ha & ->). exists (name a). split; [|reflexivity].
      exists a. auto.
    - destruct Hx as [(m' & -> & ->)|(a & Ha & ->)].
      + exists m'. split; [left|]; reflexivity.
      + exists (name a). split; [|reflexivity]. right. exists a. auto. }
  destruct Hfield as (s & Hs & ->).
  split; [apply first_segment_no_dot|].
  exists n, s. split; [exact Hn|]. split; [exact Hs|].
  apply first_segment_prefix.
Qed.

Lemma result_is_name_up_to_first_dot_witness :
  Str.contains dot "ujson" = false /\
  exists n s,
    subnode n (Module_ [Other "Try"
                          [Import [mkAlias "ujson.fast" (Some "json")];
                           Other "ExceptHandler"
                             [Other "Name" [Other "Load" []];
                              ImportFrom None [mkAlias "compat" None] 1]]]) /\
    name_field s n /\
    (s = "ujson" \/ exists rest, s = "ujson" +:+ String dot rest).
Proof.
  apply (result_is_name_up_to_first_dot quiet "guarded.py" _ [] []
           ["compat"; "ujson"]).
  - eexists. split; reflexivity.
  - vm_compute. reflexivity.
  - right. left.
Defined.

(** * The presenter *)

(** ** [_safe_path] *)

Section SafePathFacts.

Context {char P : Type} (isspace : char -> bool) (Path_ : list char -> P).

Lemma lstrip_blank (s : list char) :
  forallb isspace s = true -> Presenter.lstrip isspace s = [].
Proof.
  induction s as [|c s IH]; simpl; [reflexivity|].
  intros H. apply andb_true_iff in H as [Hc Hs]. rewrite Hc. auto.
Qed.

Lemma lstrip_not_blank (s : list char) :
  forallb isspace s = false ->
  exists c rest, Presenter.lstrip isspace s = c :: rest /\
                 isspace c = false /\
                 forallb isspace (c :: rest) = false.
Proof.
  induction s as [|c s IH]; simpl; [discriminate|].
  destruct (isspace c) eqn:Hc; simpl.
  - exact IH.
  - intros _. exists c, s. simpl. rewrite Hc. auto.
Qed.

Lemma forallb_rev (s : list char) :
  forallb isspace (rev s) = forallb isspace s.
Proof.
  induction s as [|c s IH]; [reflexivity|].
  simpl. rewrite forallb_app, IH. simpl.
  destruct (forallb isspace s), (isspace c); reflexivity.
Qed.

Lemma strip_truthy (s : list char) :
  Presenter.str_truthy (Presenter.strip isspace s)
  = negb (forallb isspace s).
Proof.
  unfold Presenter.strip, Presenter.rstrip.
  destruct (forallb isspace s) eqn:Hs.
  - rewrite (lstrip_blank s Hs). reflexivity.
  - destruct (lstrip_not_blank s Hs) as (c & rest & -> & Hc & Hrest).
    rewrite <- forallb_rev in Hrest.
    destruct (lstrip_not_blank _ Hrest) as (d & rest' & -> & _ & _).
    simpl. destruct (rev rest' ++ [d]) eqn:Happ; [|reflexivity].
    apply app_eq_nil in Happ as [_ Happ]. discriminate Happ.
Qed.

(** X7. [_safe_path] passes a [Path] through, turns a string into a path
    exactly when the string has a character that is no whitespace, and
    then builds the path from the string as given, not from the stripped
    one; an empty or blank string and every other value give [None]. *)
Theorem safe_path_accepts_non_blank (v : Presenter.value) :
  Presenter._safe_path isspace Path_ v
  = match v with
    | Presenter.VPath p => Some p
    | Presenter.VStr s =>
        if forallb isspace s then None else Some (Path_ s)
    | Presenter.VOther => None
    end.
Proof.
  destruct v as [p|s|]; simpl; try reflexivity.
  rewrite strip_truthy. destruct (forallb isspace s); reflexivity.
Qed.

End SafePathFacts.

(** With blanks and tabs as whitespace: a blank string is refused, a
    padded name is kept with its padding. *)
Example safe_path_blank_and_padded :
  let isspace := fun c => Ascii.eqb c " " || Ascii.eqb c "009" in
  let Path_ := fun s => Presenter.Path_ (string_of_list_ascii s) in
  Presenter._safe_path isspace Path_
    (Presenter.VStr (list_ascii_of_string "   ")) = None /\
  Presenter._safe_path isspace Path_
    (Presenter.VStr (list_ascii_of_string " a.py "))
  = Some (Presenter.Path_ " a.py ").
Proof. split; reflexivity. Qed.

(** ** The handlers *)

Import Presenter.

(** [_ensure_output_dir] in one equation: the attempt is recorded, a
    failure is logged and shown, anything else is passed on. *)
Lemma ensure_output_dir_eq (w : World) (p : path) (st : State) :
  _ensure_output_dir w p st
  = match mkdir_result w p with
    | inl _ =>
        (Normal tt, mkState (model st) (view st) (calls st ++ [mkdir p]))
    | inr e =>
        if isinstance e Exception
        then (Normal tt,
              mkState (model st) (view st)
                (calls st ++ [mkdir p]
                 ++ [logger_error ("创建输出目录失败: " +:+ exc_str e);
                     show_error_infobar "错误" "创建输出目录失败"]))
        else (Raise e, mkState (model st) (view st) (calls st ++ [mkdir p]))
    end.
Proof.
  unfold _ensure_output_dir, try_except, attempt.
  destruct (mkdir_result w p) as [[]|e]; [reflexivity|].
  destruct (isinstance e Exception); [|reflexivity].
  unfold and_then, emit. simpl. rewrite <- !app_assoc. reflexivity.
Qed.

(** What [_ensure_output_dir] leaves behind when it does not raise. *)
Lemma ensure_output_dir_normal (w : World) (p : path) (st : State) :
  (forall e, mkdir_result w p = inr e -> is_failure e) ->
  exists shown,
    _ensure_output_dir w p st
    = (Normal tt, mkState (model st) (view st) (calls st ++ mkdir p :: shown))
    /\ (forall e, mkdir_result w p = inr e ->
          shown = [logger_error ("创建输出目录失败: " +:+ exc_str e);
                   show_error_infobar "错误" "创建输出目录失败"])
    /\ (forall u, mkdir_result w p = inl u -> shown = []).
Proof.
  intros Hfail. rewrite ensure_output_dir_eq.
  destruct (mkdir_result w p) as [[]|e] eqn:Hm.
  - exists []. split; [reflexivity|]. split; [discriminate|reflexivity].
  - rewrite (Hfail e eq_refl). eexists. split; [reflexivity|].
    split; [|discriminate]. intros e' [= <-]. reflexivity.
Qed.

Ltac ui_run :=
  unfold and_then, emit, set_model, set_view, pure, return_None, get_model;
  simpl.

(** X8. A dropped script that exists and ends in [.py] is taken over even
    when its output directory cannot be created: the call returns, model
    and view hold the script, both hold [output] next to the script as
    output directory, the creation was attempted, a failure of it is
    shown as an error, and the selection is still reported as a
    success. *)
Theorem accepted_script_fixes_output_dir (w : World) (url : string)
    (st : State) :
  path_exists w (Path_ url) = true ->
  path_suffix w (Path_ url) = ".py" ->
  (forall e,
     mkdir_result w (joinpath (parent (Path_ url)) "output") = inr e ->
     is_failure e) ->
  exists st',
    invoke (_source_script_changed w url) st = (Returned tt, st') /\
    source_script_path (model st') = Some (Path_ url) /\
    view_source_script_path (view st') = Some (Path_ url) /\
    output_dir (model st')
    = Some (joinpath (parent (Path_ url)) "output") /\
    view_output_dir (view st')
    = Some (joinpath (parent (Path_ url)) "output") /\
    mkdir (joinpath (parent (Path_ url)) "output") ∈ calls st' /\
    show_success_infobar "成功" ("已选择文件: " +:+ path_name w (Path_ url))
      2000 ∈ calls st' /\
    (forall e,
       mkdir_result w (joinpath (parent (Path_ url)) "output") = inr e ->
       show_error_infobar "错误" "创建输出目录失败" ∈ calls st').
Proof.
  intros Hexists Hsuffix Hfail.
  unfold invoke, _source_script_changed.
  rewrite Hexists, Hsuffix. simpl.
  unfold and_then at 1. simpl. unfold and_then at 1. simpl.
  unfold and_then at 1. simpl. unfold and_then at 1.
  match goal with |- context [_ensure_output_dir w ?p ?s] =>
    destruct (ensure_output_dir_normal w p s Hfail)
      as (shown & -> & Hshown & _) end.
  destruct (found_files w (parent (Path_ url)) "python.exe")
    as [|exe others];
    [|destruct (is_relative_to w (Path_ exe) (parent (Path_ url)))];
    ui_run; (eexists; split; [reflexivity|]); simpl;
    (repeat split; try reflexivity);
    try (intros e He; rewrite (Hshown e He));
    rewrite ?elem_of_app, ?elem_of_cons; auto 20.
Qed.


Lemma accepted_script_fixes_output_dir_witness :
  exists st',
    invoke (_source_script_changed read_only_world "/proj/app.py") fresh
    = (Returned tt, st') /\
    output_dir (model st') = Some (joinpath (parent (Path_ "/proj/app.py")) "output") /\
    calls st'
    = [mkdir (joinpath (parent (Path_ "/proj/app.py")) "output");
       logger_error "创建输出目录失败: [Errno 13] Permission denied";
       show_error_infobar "错误" "创建输出目录失败";
       show_success_infobar "成功" "已选择文件: app.py" 2000;
       find_files_in_dir_recursive (parent (Path_ "/proj/app.py"))
         "python.exe"].
Proof.
  destruct (accepted_script_fixes_output_dir read_only_world "/proj/app.py"
              fresh eq_refl eq_refl)
    as (st' & Hcall & _ & _ & Hdir & _).
  - intros e [= <-]. reflexivity.
  - exists st'. split; [exact Hcall|]. split; [exact Hdir|].
    vm_compute in Hcall. injection Hcall as <-. reflexivity.
Defined.



(** X10. With a script selected, the button for the output path always
    ends with model and view holding the same output directory: the
    directory picked in the dialog, or [output] next to the script when
    the dialog is cancelled (never the working directory).  Its creation
    is attempted, and a failure of that does not keep it from being
    stored. *)
Theorem output_dir_picked_or_default (w : World) (st : State) (script : path) :
  source_script_path (model st) = Some script ->
  (forall p e, mkdir_result w p = inr e -> is_failure e) ->
  exists st',
    invoke (_output_dir_changed w) st = (Returned tt, st') /\
    output_dir (model st') = view_output_dir (view st') /\
    output_dir (model st')
    = Some (if Str.truthy (picked_directory w "选择输出路径" "")
            then Path_ (picked_directory w "选择输出路径" "")
            else joinpath (parent script) "output") /\
    source_script_path (model st') = Some script /\
    (forall d, output_dir (model st') = Some d -> mkdir d ∈ calls st').
Proof.
  intros Hscript Hfail.
  unfold invoke, _output_dir_changed, and_then at 1, get_model.
  rewrite Hscript. unfold and_then at 1, emit at 1.
  destruct (Str.truthy (picked_directory w "选择输出路径" "")); simpl.
  - unfold and_then at 1.
    match goal with |- context [_ensure_output_dir w ?p ?s] =>
      destruct (ensure_output_dir_normal w p s (Hfail p))
        as (shown & -> & _ & _) end.
    ui_run. eexists. split; [reflexivity|]. simpl.
    repeat split; try assumption; try reflexivity.
    intros d [= <-]. rewrite !elem_of_app, !elem_of_cons. auto 10.
  - unfold and_then at 1, _get_output_dir_path, and_then at 1, get_model.
    simpl. rewrite Hscript. unfold pure. unfold and_then at 1.
    match goal with |- context [_ensure_output_dir w ?p ?s] =>
      destruct (ensure_output_dir_normal w p s (Hfail p))
        as (shown & -> & _ & _) end.
    ui_run. eexists. split; [reflexivity|]. simpl.
    repeat split; try assumption; try reflexivity.
    intros d [= <-]. rewrite !elem_of_app, !elem_of_cons. auto 10.
Qed.

Lemma output_dir_picked_or_default_witness :
  exists st',
    invoke (_output_dir_changed read_only_world)
      (mkState (mkModel (Some (Path_ "/proj/app.py")) None None "onefile" None)
         (mkView (Some (Path_ "/proj/app.py")) None None) [])
    = (Returned tt, st') /\
    output_dir (model st')
    = Some (joinpath (parent (Path_ "/proj/app.py")) "output") /\
    view_output_dir (view st')
    = Some (joinpath (parent (Path_ "/proj/app.py")) "output").
Proof.
  destruct (output_dir_picked_or_default read_only_world
              (mkState
                 (mkModel (Some (Path_ "/proj/app.py")) None None "onefile"
                    None)
                 (mkView (Some (Path_ "/proj/app.py")) None None) [])
              (Path_ "/proj/app.py") eq_refl)
    as (st' & Hcall & Hsame & Hdir & _).
  - intros p e [= <-]. reflexivity.
  - exists st'. split; [exact Hcall|]. split; [exact Hdir|].
    rewrite <- Hsame. exact Hdir.
Defined.

Ltac ask_world :=
  repeat (match goal with
          | |- context [path_exists ?w ?p] => destruct (path_exists w p)
          | |- context [String.eqb ?a ?b] => destruct (String.eqb a b)
          | |- context [Str.truthy ?a] => destruct (Str.truthy a)
          | |- context [found_files ?w ?a ?b] => destruct (found_files w a b)
          | |- context [is_relative_to ?w ?a ?b] =>
              destruct (is_relative_to w a b)
          | |- context [mkdir_result ?w ?p] =>
              destruct (mkdir_result w p) as [[]|?]
          | |- context [isinstance ?e Exception] =>
              destruct (isinstance e Exception)
          | |- context [mode_radiobutton_isChecked ?w] =>
              destruct (mode_radiobutton_isChecked w)
          end; simpl).

Lemma invoke_state (body : Ui unit) (st : State) :
  snd (invoke body st) = snd (body st).
Proof. unfold invoke. destruct (body st) as [[a|r|e] st']; reflexivity. Qed.

Lemma source_script_changed_in_step (w : World) (url : string) (st : State) :
  in_step st -> in_step (snd (_source_script_changed w url st)).
Proof.
  intros (Hout & Hscript & Hicon).
  unfold in_step, _source_script_changed, _get_output_dir_path;
    ui_run; ask_world; repeat rewrite ensure_output_dir_eq; ask_world; auto.
Qed.

(** Every slot keeps model and view in step, however it ends. *)
Lemma slot_keeps_in_step (w : World) (s : signal) (st : State) :
  in_step st -> in_step (snd (invoke (slot w s) st)).
Proof.
  intros Hstep. rewrite invoke_state. destruct s; simpl.
  - apply source_script_changed_in_step, Hstep.
  - unfold _open_file_dialog. ui_run. ask_world.
    + apply source_script_changed_in_step. exact Hstep.
    + exact Hstep.
  - destruct Hstep as (Hout & Hscript & Hicon).
    unfold in_step, _output_dir_changed, _get_output_dir_path. ui_run.
    destruct (source_script_path (model st)) eqn:Hsel; simpl;
      ask_world; rewrite ?Hsel; simpl;
      repeat rewrite ensure_output_dir_eq; ask_world; rewrite ?Hsel; auto.
  - destruct Hstep as (Hout & Hscript & Hicon).
    unfold in_step, _icon_changed. ui_run. ask_world; auto.
  - destruct Hstep as (Hout & Hscript & Hicon).
    unfold in_step, _packaged_mode_changed. ui_run. auto.
Qed.

(** X11. Model and view stay in step through any session: whatever
    signals arrive, whatever the file system and the dialogs answer, and
    even when a slot raises, the model and the view hold the same output
    directory afterwards, and the script and the icon of the model are
    either cleared or the ones assigned to the view. *)
Theorem session_keeps_in_step (signals : list (World * signal))
    (st : State) :
  in_step st -> in_step (session signals st).
Proof.
  revert st. induction signals as [|[w s] rest IH]; intros st Hstep.
  - exact Hstep.
  - simpl. apply IH, slot_keeps_in_step, Hstep.
Qed.

Lemma session_keeps_in_step_witness :
  in_step (session [(read_only_world, droped_file_url "/proj/app.py");
                    (read_only_world, output_path_btn_clicked);
                    (read_only_world, droped_file_url "/proj/notes.txt");
                    (read_only_world, icon_btn_clicked)]
             fresh).
Proof.
  apply session_keeps_in_step. repeat split; left; reflexivity.
Defined.

(** X12. Cancelling is not the same for the two file dialogs.  After an
    icon was picked, cancelling the icon dialog clears the icon of the
    model while the view keeps the icon assigned to it; cancelling the
    script dialog leaves the script of the model as it is. *)
Theorem cancel_clears_icon_keeps_script (w1 w2 : World) (st : State) :
  Str.truthy (picked_file w1 "选择图标文件" "" "图标文件 (*.ico)") = true ->
  picked_file w2 "选择图标文件" "" "图标文件 (*.ico)" = "" ->
  picked_file w2 "选择 Python 文件" "" "Python 文件 (*.py)" = "" ->
  icon_path (model (session [(w1, icon_btn_clicked)] st))
  = Some (Path_ (picked_file w1 "选择图标文件" "" "图标文件 (*.ico)")) /\
  icon_path
    (model (session [(w1, icon_btn_clicked); (w2, icon_btn_clicked)] st))
  = None /\
  view_icon_path
    (view (session [(w1, icon_btn_clicked); (w2, icon_btn_clicked)] st))
  = Some (Path_ (picked_file w1 "选择图标文件" "" "图标文件 (*.ico)")) /\
  source_script_path
    (model (session [(w2, source_script_btn_clicked)] st))
  = source_script_path (model st).
Proof.
  intros Hpick Hcancel_icon Hcancel_script.
  simpl. rewrite !invoke_state.
  unfold _icon_changed, _open_file_dialog. ui_run.
  rewrite Hpick, Hcancel_icon, Hcancel_script. simpl. auto.
Qed.

Lemma cancel_clears_icon_keeps_script_witness :
  icon_path
    (model (session [(icon_world, icon_btn_clicked);
                     (read_only_world, icon_btn_clicked)] fresh))
  = None /\
  view_icon_path
    (view (session [(icon_world, icon_btn_clicked);
                    (read_only_world, icon_btn_clicked)] fresh))
  = Some (Path_ "/proj/app.ico").
Proof.
  pose proof (cancel_clears_icon_keeps_script icon_world read_only_world
                fresh eq_refl eq_refl eq_refl)
    as (_ & Hmodel & Hview & _).
  split; [exact Hmodel|exact Hview].
Defined.

(** X13. Of the [python.exe] files found next to an accepted script only
    the first is looked at: it becomes the interpreter of the model, with
    a dialog and a settings update, when it lies below the directory of
    the script; otherwise the interpreter of the model stays as it was,
    whatever else was found. *)
Theorem only_first_interpreter_counts (w : World) (url : string) (st : State) :
  path_exists w (Path_ url) = true ->
  path_suffix w (Path_ url) = ".py" ->
  (forall e,
     mkdir_result w (joinpath (parent (Path_ url)) "output") = inr e ->
     is_failure e) ->
  exists st',
    invoke (_source_script_changed w url) st = (Returned tt, st') /\
    match found_files w (parent (Path_ url)) "python.exe" with
    | exe :: _ =>
        if is_relative_to w (Path_ exe) (parent (Path_ url))
        then project_python_exe_path (model st') = Some exe /\
             update_setting_view_emit ∈ calls st'
        else project_python_exe_path (model st')
             = project_python_exe_path (model st) /\
             (update_setting_view_emit ∈ calls st' ->
              update_setting_view_emit ∈ calls st)
    | [] =>
        project_python_exe_path (model st')
        = project_python_exe_path (model st) /\
        (update_setting_view_emit ∈ calls st' ->
         update_setting_view_emit ∈ calls st)
    end.
Proof.
  intros Hexists Hsuffix Hfail.
  unfold invoke, _source_script_changed.
  rewrite Hexists, Hsuffix. simpl.
  unfold and_then at 1. simpl. unfold and_then at 1. simpl.
  unfold and_then at 1. simpl. unfold and_then at 1.
  match goal with |- context [_ensure_output_dir w ?p ?s] =>
    destruct (ensure_output_dir_normal w p s Hfail)
      as (shown & -> & Hshown & Hnone) end.
  assert (Hquiet : forall l : list event,
            update_setting_view_emit ∈ (mkdir (joinpath (parent (Path_ url)) "output") :: shown) ++ l ->
            update_setting_view_emit ∈ l).
  { intros l Hin. apply elem_of_app in Hin as [Hin|Hin]; [|exact Hin].
    apply elem_of_cons in Hin as [Hin|Hin]; [discriminate Hin|].
    destruct (mkdir_result w (joinpath (parent (Path_ url)) "output"))
      as [u|e] eqn:Hm.
    - rewrite (Hnone u eq_refl) in Hin. inversion Hin.
    - rewrite (Hshown e eq_refl) in Hin.
      repeat (apply elem_of_cons in Hin as [Hin|Hin];
              [discriminate Hin|]).
      inversion Hin. }
  destruct (found_files w (parent (Path_ url)) "python.exe")
    as [|exe others];
    [|destruct (is_relative_to w (Path_ exe) (parent (Path_ url)))];
    ui_run; (eexists; split; [reflexivity|]); simpl.
  - split; [reflexivity|]. intros Hin.
    rewrite <- !app_assoc in Hin.
    apply elem_of_app in Hin as [Hin|Hin]; [exact Hin|].
    apply Hquiet in Hin.
    repeat (apply elem_of_cons in Hin as [Hin|Hin]; [discriminate Hin|]).
    inversion Hin.
  - split; [reflexivity|]. rewrite !elem_of_app, !elem_of_cons. auto 10.
  - split; [reflexivity|]. intros Hin.
    rewrite <- !app_assoc in Hin.
    apply elem_of_app in Hin as [Hin|Hin]; [exact Hin|].
    apply Hquiet in Hin.
    repeat (apply elem_of_cons in Hin as [Hin|Hin]; [discriminate Hin|]).
    inversion Hin.
Qed.

Lemma only_first_interpreter_counts_witness :
  found_files read_only_world (parent (Path_ "/proj/app.py")) "python.exe"
  = ["/usr/bin/python.exe"; "/proj/venv/Scripts/python.exe"] /\
  is_relative_to read_only_world (Path_ "/proj/venv/Scripts/python.exe")
    (parent (Path_ "/proj/app.py")) = true /\
  exists st',
    invoke (_source_script_changed read_only_world "/proj/app.py") fresh
    = (Returned tt, st') /\
    project_python_exe_path (model st') = None.
Proof.
  split; [reflexivity|]. split; [reflexivity|].
  destruct (only_first_interpreter_counts read_only_world "/proj/app.py"
              fresh eq_refl eq_refl)
    as (st' & Hcall & Hexe).
  - intros e [= <-]. reflexivity.
  - exists st'. split; [exact Hcall|]. exact (proj1 Hexe).
Defined.
